(** * Face detection / face recognition pipeline

    A shallow embedding of [fd_component.py] (the Greengrass detection
    component) and [fr_lambda.py] (the recognition Lambda), and the
    properties of the pipeline proved on it.

    Conventions of the embedding:
    - a Python [dict] with string keys and string values (a JSON object of
      the message contracts) is a [gmap string string]; [json.dumps] of such
      a dict and [json.loads] of a message body are not re-implemented: a
      body is represented by what [json.loads] makes of it ([Payload]);
    - the module level set [seen_req_ids] is a [gset string];
    - code that raises is run in a state-and-exception monad: the state
      reached when the exception leaves a function is kept, exactly as the
      mutations of a Python object survive the unwinding;
    - the models (MTCNN, the TorchScript resnet), PIL, base64, the file
      system permissions and SQS are external: they are fields of an
      environment record and every theorem holds for all environments. *)

From Stdlib Require Import ZArith.
From stdpp Require Import gmap strings list.

(** ** Shared vocabulary *)

(** Python [bytes]. *)
Definition bytes := list Byte.byte.

(** The exceptions that the two components can raise. *)
Inductive Exn :=
| UnicodeDecodeError            (* raw.decode("utf-8") *)
| JSONDecodeError               (* json.loads *)
| TypeError                     (* subscripting a JSON value that is no dict *)
| KeyError (key : string)       (* d[key] on a missing key *)
| BinasciiError                 (* base64.b64decode *)
| OSError (path : string)       (* open(path, ...) *)
| UnidentifiedImageError        (* PIL.Image.open *)
| RuntimeError                  (* a torch call: load, jit.load, forward *)
| ValueError                    (* min([]), list.index of an absent value *)
| IndexError                    (* l[i] out of range *)
| ClientError (url : string).   (* sqs.send_message *)

(** What [json.loads] makes of a message body. *)
Inductive Payload :=
| Malformed                     (* not JSON: json.loads raises *)
| Scalar                        (* JSON, but not an object *)
| Object (body : gmap string string).

(** State and exception monad over a state type [S]. *)
Definition M (S A : Type) : Type := S -> S * (Exn + A).

Definition ret {S A} (a : A) : M S A := fun s => (s, inr a).
Definition raise {S A} (e : Exn) : M S A := fun s => (s, inl e).
Definition bind {S A B} (k : A -> M S B) (c : M S A) : M S B :=
  fun s => match c s with
           | (s', inr a) => k a s'
           | (s', inl e) => (s', inl e)
           end.
#[global] Instance M_ret {S} : MRet (M S) := @ret S.
#[global] Instance M_bind {S} : MBind (M S) := @bind S.
Definition gets {S A} (f : S -> A) : M S A := fun s => (s, inr (f s)).
Definition modify {S} (f : S -> S) : M S unit := fun s => (f s, inr tt).
Definition lift_opt {S A} (e : Exn) (o : option A) : M S A :=
  match o with Some a => ret a | None => raise e end.
Definition lift_sum {S A} (r : Exn + A) : M S A :=
  match r with inr a => ret a | inl e => raise e end.

(** [d[key]] on a parsed body. *)
Definition getitem {S} (p : Payload) (key : string) : M S string :=
  match p with
  | Object body => lift_opt (KeyError key) (body !! key)
  | Scalar => raise TypeError
  | Malformed => raise JSONDecodeError
  end.

(** [json.loads(text)]: raises on text that is not JSON. *)
Definition json_loads {S} (p : Payload) : M S Payload :=
  match p with
  | Malformed => raise JSONDecodeError
  | _ => ret p
  end.

(** * The detection component, [fd_component.py] *)
Module FD.

(** Lines written by [print]. *)
Inductive LogLine :=
| ReceivedEvent
| ReceivedMessage (encoded : string)
| NoFaceDetected (req_id : string)
| SentNoFace (req_id : string)
| SentSqs (req_id : string)
| Error (e : Exn).

(** Calls made to the external capabilities, in order. *)
Inductive Call :=
| B64Decode (encoded : string)
| ImageOpen (path : string)
| Mtcnn (path : string)
| SendMessage (url : string) (body : gmap string string).

(** What was delivered on the topic: [evt.binary_message.message]. *)
Inductive Event :=
| NotUtf8
| Text (message_payload : Payload).

Record State := mkState {
  seen_req_ids : gset string;
  files : gmap string bytes;
  sent : list (string * gmap string string);
  calls : list Call;
  stdout : list LogLine
}.

Definition init : State := mkState ∅ ∅ [] [] [].

Section Component.

Context {Image Face : Type}.

Record Env := mkEnv {
  REQUEST_QUEUE_URL : string;
  RESPONSE_QUEUE_URL : string;
  TMP_DIR : string;
  os_path_join : string -> string -> string;
  (* os.path.splitext(os.path.basename(p))[0].split(".")[0] *)
  path_key : string -> string;
  b64decode : string -> option bytes;
  b64encode : bytes -> string;
  writable : string -> bool;
  image_open : bytes -> option Image;
  mtcnn : Image -> Exn + option Face;
  (* normalise to 0..255, permute, Image.fromarray, save as JPEG *)
  face_jpeg : Face -> bytes;
  sqs_accepts : string -> gmap string string -> bool
}.

Variable env : Env.

Definition print (l : LogLine) : M State unit :=
  modify (fun s => mkState (seen_req_ids s) (files s) (sent s) (calls s)
                           (stdout s ++ [l])).

Definition record_call (c : Call) : M State unit :=
  modify (fun s => mkState (seen_req_ids s) (files s) (sent s)
                           (calls s ++ [c]) (stdout s)).

Definition seen_add (req_id : string) : M State unit :=
  modify (fun s => mkState ({[req_id]} ∪ seen_req_ids s) (files s) (sent s)
                           (calls s) (stdout s)).

(** [with open(path, "wb") as f: f.write(data)] *)
Definition write_file (path : string) (data : bytes) : M State unit :=
  if writable env path
  then modify (fun s => mkState (seen_req_ids s) (<[path := data]> (files s))
                                (sent s) (calls s) (stdout s))
  else raise (OSError path).

(** [with open(path, "rb") as f: f.read()] *)
Definition read_file (path : string) : M State bytes :=
  fs ← gets files;
  lift_opt (OSError path) (fs !! path).

(** [sqs.send_message(QueueUrl=url, MessageBody=json.dumps(body))] *)
Definition send_message (url : string) (body : gmap string string)
  : M State unit :=
  record_call (SendMessage url body);;
  if sqs_accepts env url body
  then modify (fun s => mkState (seen_req_ids s) (files s)
                                (sent s ++ [(url, body)]) (calls s) (stdout s))
  else raise (ClientError url).

(** [face_detection.face_detection_func] *)
Definition face_detection_func (test_image_path output_path : string)
  : M State (option string) :=
  record_call (ImageOpen test_image_path);;
  data ← read_file test_image_path;
  img ← lift_opt UnidentifiedImageError (image_open env data);
  let key := path_key env test_image_path in
  record_call (Mtcnn test_image_path);;
  face ← lift_sum (mtcnn env img);
  match face with
  | Some face =>
      let face_img_path := os_path_join env output_path (key +:+ "_face.jpg") in
      write_file face_img_path (face_jpeg env face);;
      ret (Some face_img_path)
  | None => ret None
  end.

Definition process_message (message_payload : Payload) : M State unit :=
  body ← json_loads message_payload;
  encoded ← getitem body "encoded";
  print (ReceivedMessage encoded);;
  req_id ← getitem body "request_id";
  let fname := match body with
               | Object b => default "" (b !! "filename")
               | _ => ""
               end in
  seen ← gets seen_req_ids;
  if decide (req_id ∈ seen) then ret tt else
  seen_add req_id;;
  record_call (B64Decode encoded);;
  raw_bytes ← lift_opt BinasciiError (b64decode env encoded);
  let in_path := os_path_join env (TMP_DIR env) (req_id +:+ ".jpg") in
  write_file in_path raw_bytes;;
  let temp_output_path := "/tmp/detected_faces" in
  (* os.makedirs(temp_output_path, exist_ok=True): no file is touched *)
  face_path ← face_detection_func in_path temp_output_path;
  match face_path with
  | None =>
      print (NoFaceDetected req_id);;
      let response_payload : gmap string string :=
        <["request_id" := req_id]>
          (<["result" := "No-Face"]> (<["filename" := fname]> ∅)) in
      send_message (RESPONSE_QUEUE_URL env) response_payload;;
      print (SentNoFace req_id)
  | Some face_path =>
      face_data ← read_file face_path;
      let face_base64 := b64encode env face_data in
      let payload : gmap string string :=
        <["request_id" := req_id]>
          (<["face_image" := face_base64]> (<["filename" := fname]> ∅)) in
      send_message (REQUEST_QUEUE_URL env) payload;;
      print (SentSqs req_id)
  end.

(** [on_stream_event]: every exception is caught and printed. *)
Definition utf8_decode (evt : Event) : M State Payload :=
  match evt with
  | Text p => ret p
  | NotUtf8 => raise UnicodeDecodeError
  end.

(** The body of the [try] block of [on_stream_event]. *)
Definition try_event (evt : Event) : M State unit :=
  print ReceivedEvent;;
  text ← utf8_decode evt;
  process_message text.

Definition on_stream_event (evt : Event) (s : State) : State :=
  match try_event evt s with
  | (s', inr _) => s'
  | (s', inl e) => fst (print (Error e) s')
  end.

(** The subscription delivers events one after the other. *)
Definition deliver (evts : list Event) (s : State) : State :=
  fold_left (fun s evt => on_stream_event evt s) evts s.

(** The request id carried by an event, when it has one. *)
Definition event_request_id (evt : Event) : option string :=
  match evt with
  | Text (Object body) => body !! "request_id"
  | _ => None
  end.

(** Messages published so far that carry request id [r]. *)
Definition published_for (r : string) (s : State)
  : list (string * gmap string string) :=
  filter (fun m => m.2 !! "request_id" = Some r) (sent s).

(** The two queues, as views of what was sent. *)
Definition response_queue (s : State) : list (gmap string string) :=
  (filter (fun m => m.1 = RESPONSE_QUEUE_URL env) (sent s)).*2.
Definition request_queue (s : State) : list (gmap string string) :=
  (filter (fun m => m.1 = REQUEST_QUEUE_URL env) (sent s)).*2.

(** Malformed input: a payload that is not UTF-8, not JSON or not an
    object, an object without [encoded] or [request_id], or image bytes
    that base64 or PIL reject. *)
Definition malformed (evt : Event) : bool :=
  match evt with
  | NotUtf8 | Text Malformed | Text Scalar => true
  | Text (Object body) =>
      match body !! "encoded", body !! "request_id" with
      | Some encoded, Some _ =>
          match b64decode env encoded with
          | Some raw_bytes =>
              match image_open env raw_bytes with
              | Some _ => false
              | None => true
              end
          | None => true
          end
      | _, _ => true
      end
  end.

End Component.

Arguments Env : clear implicits.

(** The two dicts that [process_message] publishes: [response_payload]
    (lines 119 to 123) and [payload] (lines 135 to 139). *)
Definition response_payload (req_id fname : string) : gmap string string :=
  <["request_id" := req_id]>
    (<["result" := "No-Face"]> (<["filename" := fname]> ∅)).
Definition payload (req_id face_base64 fname : string) : gmap string string :=
  <["request_id" := req_id]>
    (<["face_image" := face_base64]> (<["filename" := fname]> ∅)).

(** How often base64 was asked to decode and how often MTCNN was run. *)
Definition is_b64decode (c : Call) : bool :=
  match c with B64Decode _ => true | _ => false end.
Definition is_mtcnn (c : Call) : bool :=
  match c with Mtcnn _ => true | _ => false end.
Definition decodings (s : State) : nat :=
  length (filter (fun c => is_b64decode c) (calls s)).
Definition detector_runs (s : State) : nat :=
  length (filter (fun c => is_mtcnn c) (calls s)).

End FD.

(** * The recognition Lambda, [fr_lambda.py]

    The [logger.info] lines, and the [key] that [face_recognition_func]
    computes only to log it, are left out. *)
Module FR.

(** Calls made to the external capabilities, in order. *)
Inductive Call :=
| ImageOpen (path : string)
| TorchLoad (path : string)
| JitLoad (path : string)
| Forward
| SendMessage (url : string) (body : gmap string string).

Definition is_torch_load (c : Call) : bool :=
  match c with TorchLoad _ => true | _ => false end.
Definition is_jit_load (c : Call) : bool :=
  match c with JitLoad _ => true | _ => false end.

(** One SQS record of the Lambda event: [record['body']]. *)
Record SqsRecord := mkRecord { body : Payload }.

Record State := mkState {
  files : gmap string bytes;
  sent : list (string * gmap string string);
  calls : list Call
}.

Definition init : State := mkState ∅ [] [].

(** The value returned by [handler]. *)
Inductive Message :=
| Completed                       (* 'Face recognition completed successfully' *)
| ErrorInFaceRecognition (e : Exn).
Record Response := mkResponse { statusCode : Z; message : Message }.

Section Matcher.

(** Distances are the floats that [torch.dist(..).item()] returns; the
    matcher only compares them, with [<] in [min] and [==] in
    [list.index]. *)
Context {D : Type}.
Variable ltb : D -> D -> bool.
Variable eqb : D -> D -> bool.

(** [min(l)]: keeps the first item unless a later one is strictly
    smaller. *)
Definition py_min (l : list D) : Exn + D :=
  match l with
  | [] => inl ValueError
  | x :: xs => inr (fold_left (fun m y => if ltb y m then y else m) xs x)
  end.

(** [l.index(v)]: position of the first item equal to [v]. *)
Fixpoint py_index (l : list D) (v : D) : Exn + nat :=
  match l with
  | [] => inl ValueError
  | x :: xs =>
      if eqb x v then inr 0
      else match py_index xs v with
           | inr i => inr (S i)
           | inl e => inl e
           end
  end.

(** [min_index = dist_list.index(min(dist_list))] *)
Definition min_index (dist_list : list D) : Exn + nat :=
  match py_min dist_list with
  | inr m => py_index dist_list m
  | inl e => inl e
  end.

(** The comparisons of floats none of which is NaN: [<] is a strict weak
    order and [==] holds exactly between items neither of which is below
    the other. *)
Record comparable : Prop := {
  lt_asym : forall x y, ltb x y = true -> ltb y x = false;
  lt_negtrans : forall x y z, ltb x y = false -> ltb y z = false -> ltb x z = false;
  eq_iff : forall x y, eqb x y = true <-> ltb x y = false /\ ltb y x = false
}.

End Matcher.

Section Lambda.

Context {Image Tensor Model Emb D : Type}.

Record Env := mkEnv {
  RESPONSE_QUEUE_URL : string;
  LAMBDA_TASK_ROOT : string;
  os_path_join : string -> string -> string;
  b64decode : string -> option bytes;
  writable : string -> bool;
  image_open : bytes -> option Image;
  (* np.array(..) / 255.0, np.transpose, torch.tensor *)
  to_tensor : Image -> Tensor;
  (* torch.load: (embedding_list, name_list) *)
  torch_load : string -> option (list Emb * list string);
  jit_load : string -> option Model;
  (* resnet(face_tensor.unsqueeze(0)).detach() *)
  forward : Model -> Tensor -> option Emb;
  (* torch.dist(a, b).item() *)
  torch_dist : Emb -> Emb -> D;
  dist_ltb : D -> D -> bool;
  dist_eqb : D -> D -> bool;
  sqs_accepts : string -> gmap string string -> bool
}.

Variable env : Env.

Definition record_call (c : Call) : M State unit :=
  modify (fun s => mkState (files s) (sent s) (calls s ++ [c])).

(** [open(path, 'wb')]: the file is created or truncated. *)
Definition open_wb (path : string) : M State unit :=
  if writable env path
  then modify (fun s => mkState (<[path := []]> (files s)) (sent s) (calls s))
  else raise (OSError path).

(** [f.write(data)] on the file opened at [path]. *)
Definition f_write (path : string) (data : bytes) : M State unit :=
  modify (fun s => mkState (<[path := data]> (files s)) (sent s) (calls s)).

Definition read_file (path : string) : M State bytes :=
  fs ← gets files;
  lift_opt (OSError path) (fs !! path).

Definition send_message (url : string) (body : gmap string string)
  : M State unit :=
  record_call (SendMessage url body);;
  if sqs_accepts env url body
  then modify (fun s => mkState (files s) (sent s ++ [(url, body)]) (calls s))
  else raise (ClientError url).

(** Lines 36 to 42: the nearest neighbour among the saved embeddings. *)
Definition nearest (emb : Emb) (saved_data : list Emb * list string)
  : Exn + string :=
  let embedding_list := saved_data.1 in
  let name_list := saved_data.2 in
  let dist_list := torch_dist env emb <$> embedding_list in
  match min_index (dist_ltb env) (dist_eqb env) dist_list with
  | inr min_index =>
      match name_list !! min_index with
      | Some recognized_name => inr recognized_name
      | None => inl IndexError
      end
  | inl e => inl e
  end.

(** [face_recognition.face_recognition_func] *)
Definition face_recognition_func (model_path model_wt_path face_img_path : string)
  : M State (option string) :=
  record_call (ImageOpen face_img_path);;
  data ← read_file face_img_path;
  face_pil ← lift_opt UnidentifiedImageError (image_open env data);
  let face_tensor : option Tensor := Some (to_tensor env face_pil) in
  record_call (TorchLoad model_wt_path);;
  saved_data ← lift_opt RuntimeError (torch_load env model_wt_path);
  record_call (JitLoad model_path);;
  resnet ← lift_opt RuntimeError (jit_load env model_path);
  match face_tensor with
  | Some face_tensor =>
      record_call Forward;;
      emb ← lift_opt RuntimeError (forward env resnet face_tensor);
      recognized_name ← lift_sum (nearest emb saved_data);
      ret (Some recognized_name)
  | None => ret None
  end.

(** Truth value of [recognized_name]: [None] and [""] are false. *)
Definition truthy (recognized_name : option string) : bool :=
  match recognized_name with
  | Some name => negb (String.eqb name "")
  | None => false
  end.

(** The body of the [for record in event['Records']] loop. *)
Definition process_record (model_path model_wt_path : string)
  (record : SqsRecord) : M State unit :=
  message_body ← json_loads (body record);
  request_id ← getitem message_body "request_id";
  face_base64 ← getitem message_body "face_image";
  filename ← getitem message_body "filename";
  let temp_face_path := "/tmp/face.jpg" in
  open_wb temp_face_path;;
  raw ← lift_opt BinasciiError (b64decode env face_base64);
  f_write temp_face_path raw;;
  recognized_name ← face_recognition_func model_path model_wt_path temp_face_path;
  let result_message : gmap string string :=
    <["request_id" := request_id]>
      (<["result" := if truthy recognized_name
                     then default "" recognized_name
                     else "Unknown"]> ∅) in
  send_message (RESPONSE_QUEUE_URL env) result_message.

Fixpoint for_records (model_path model_wt_path : string)
  (records : list SqsRecord) : M State unit :=
  match records with
  | [] => ret tt
  | record :: rest =>
      process_record model_path model_wt_path record;;
      for_records model_path model_wt_path rest
  end.

Definition async_handler (event : list SqsRecord) : M State Response :=
  let model_path := os_path_join env (LAMBDA_TASK_ROOT env) "resnetV1.pt" in
  let model_wt_path :=
    os_path_join env (LAMBDA_TASK_ROOT env) "resnetV1_video_weights.pt" in
  for_records model_path model_wt_path event;;
  ret (mkResponse 200 Completed).

(** [handler]: a failure of the batch becomes the 500 response. *)
Definition handler (event : list SqsRecord) (s : State) : State * Response :=
  match async_handler event s with
  | (s', inr result) => (s', result)
  | (s', inl e) => (s', mkResponse 500 (ErrorInFaceRecognition e))
  end.

(** How many times the reference database and the model were loaded. *)
Definition database_loads (s : State) : nat :=
  length (filter (fun c => is_torch_load c) (calls s)).
Definition model_loads (s : State) : nat :=
  length (filter (fun c => is_jit_load c) (calls s)).

(** The Results on the response channel. *)
Definition response_queue (s : State) : list (gmap string string) :=
  (filter (fun m => m.1 = RESPONSE_QUEUE_URL env) (sent s)).*2.

End Lambda.

Arguments Env : clear implicits.

(** [message_body['request_id']] of a record, when it has one. *)
Definition record_request_id (record : SqsRecord) : option string :=
  match body record with
  | Object message_body => message_body !! "request_id"
  | _ => None
  end.

End FR.

(** * A concrete environment

    Small stand-ins for the external capabilities, used to run the two
    components on explicit inputs. *)
Module Demo.

Definition of_string (s : string) : bytes := String.list_byte_of_string s.
Definition to_string (b : bytes) : string := String.string_of_list_byte b.

(** Base64 text is taken to decode to its own bytes; ["!"] is rejected. *)
Definition b64decode (s : string) : option bytes :=
  if String.eqb s "!" then None else Some (of_string s).

(** An image is its bytes; the empty file is no image. *)
Definition image_open (b : bytes) : option bytes :=
  match b with [] => None | _ => Some b end.

(** The detector finds a face in images whose text starts with ["face"]. *)
Definition mtcnn (img : bytes) : Exn + option bytes :=
  if String.prefix "face" (to_string img) then inr (Some img) else inr None.

Definition fd_env : FD.Env bytes bytes :=
  FD.mkEnv "request-queue" "response-queue" "/tmp/in"
    (fun a b => a +:+ "/" +:+ b) (fun p => p)
    b64decode to_string (fun _ => true) image_open mtcnn (fun face => face)
    (fun _ _ => true).

(** An inbound event [{request_id, encoded, filename}]. *)
Definition inbound (request_id encoded filename : string) : FD.Event :=
  FD.Text (Object (<["request_id" := request_id]>
                  (<["encoded" := encoded]> (<["filename" := filename]> ∅)))).

(** Embeddings are integers, the embedding of a crop is its length, and a
    crop of a single byte is degenerate: the forward pass raises. *)
Definition forward (_ : unit) (t : bytes) : option Z :=
  match t with
  | [_] => None
  | _ => Some (Z.of_nat (length t))
  end.

Definition fr_env (saved_data : list Z * list string)
  : FR.Env bytes bytes unit Z Z :=
  FR.mkEnv "response-queue" "/var/task"
    (fun a b => a +:+ "/" +:+ b) b64decode (fun _ => true) image_open
    (fun img => img) (fun _ => Some saved_data) (fun _ => Some tt) forward
    (fun a b => Z.abs (a - b)) Z.ltb Z.eqb (fun _ _ => true).

(** A WorkItem [{request_id, face_image, filename}] as an SQS record. *)
Definition work_item (request_id face_image filename : string) : FR.SqsRecord :=
  FR.mkRecord (Object (<["request_id" := request_id]>
                      (<["face_image" := face_image]>
                      (<["filename" := filename]> ∅)))).

Definition database : list Z * list string :=
  ([9; 5; 7]%Z, ["alice"; "bob"; "carol"]).

(** A request without a face, one with a face, and the latter again. *)
Definition two_requests : list FD.Event :=
  [inbound "r1" "x" "a.jpg"; inbound "r2" "face1" "b.jpg";
   inbound "r2" "face1" "b.jpg"].

End Demo.

(** * Properties *)

(** Unfolds the monadic plumbing. *)
Ltac unfold_m :=
  unfold getitem, json_loads, lift_opt, lift_sum, mbind, M_bind, bind,
    mret, M_ret, ret, raise, gets, modify in *.

(** Case analysis on the innermost undecided test of the goal. *)
Ltac destruct_inner :=
  match goal with
  | |- context [match ?x with _ => _ end] =>
      lazymatch x with
      | context [match _ with _ => _ end] => fail
      | _ => destruct x eqn:?
      end
  end.

Ltac run_cases := repeat (destruct_inner; simplify_map_eq/=; try congruence).

(** ** The nearest-neighbour matcher *)
Section MatcherFacts.

Context {D : Type} (ltb eqb : D -> D -> bool).
Hypothesis order : FR.comparable ltb eqb.

Let keep_smaller := fun m y : D => if ltb y m then y else m.

Lemma lt_irrefl x : ltb x x = false.
Proof.
  destruct (ltb x x) eqn:E; [|done].
  by rewrite (FR.lt_asym _ _ order x x E) in E.
Qed.

(** The scan of [min] ends on an item of the list below which there is
    no other. *)
Lemma fold_min_spec xs x :
  let m := fold_left keep_smaller xs x in
  m ∈ x :: xs ∧ ∀ y, y ∈ x :: xs → ltb y m = false.
Proof.
  revert x. induction xs as [|a xs IH]; intros x; simpl.
  - split; [apply elem_of_cons; auto|]. intros y Hy.
    apply list_elem_of_singleton in Hy as ->. apply lt_irrefl.
  - destruct (IH (keep_smaller x a)) as [Hin Hle]. split.
    + apply elem_of_cons in Hin as [->|Hin]; [|rewrite !elem_of_cons; auto].
      unfold keep_smaller. destruct (ltb a x); rewrite !elem_of_cons; auto.
    + assert (Hk : ltb (keep_smaller x a) (fold_left keep_smaller xs (keep_smaller x a)) = false)
        by (apply Hle, elem_of_cons; auto).
      intros y Hy. apply elem_of_cons in Hy as [->|Hy].
      * unfold keep_smaller in Hk at 1. destruct (ltb a x) eqn:E; [|done].
        eapply (FR.lt_negtrans _ _ order); [|exact Hk].
        by apply (FR.lt_asym _ _ order).
      * apply elem_of_cons in Hy as [->|Hy]; [|apply Hle, elem_of_cons; auto].
        unfold keep_smaller in Hk at 1. destruct (ltb a x) eqn:E; [done|].
        by eapply (FR.lt_negtrans _ _ order); [exact E|].
Qed.

Lemma py_min_spec l :
  l ≠ [] →
  ∃ m, FR.py_min ltb l = inr m ∧ m ∈ l ∧ ∀ y, y ∈ l → ltb y m = false.
Proof.
  destruct l as [|x xs]; [done|]. intros _. eexists. split; [done|].
  apply fold_min_spec.
Qed.

(** [index] answers with the first position holding an equal item. *)
Lemma py_index_inr l v i :
  FR.py_index eqb l v = inr i →
  ∃ d, l !! i = Some d ∧ eqb d v = true ∧
       ∀ j dj, j < i → l !! j = Some dj → eqb dj v = false.
Proof.
  revert i. induction l as [|x xs IH]; intros i; simpl; [done|].
  destruct (eqb x v) eqn:E.
  - intros [= <-]. exists x. repeat split; [done|]. intros; lia.
  - destruct (FR.py_index eqb xs v) as [e|k] eqn:Ek; [done|].
    intros [= <-]. destruct (IH k eq_refl) as (d & Hd & Hv & Hfirst).
    exists d. repeat split; [done..|].
    intros [|j] dj Hj; simpl; [by intros [= <-]|].
    apply Hfirst. lia.
Qed.

Lemma py_index_found l v d :
  d ∈ l → eqb d v = true → ∃ i, FR.py_index eqb l v = inr i.
Proof.
  induction l as [|x xs IH]; [by intros ?%elem_of_nil|].
  intros Hin Hv. simpl. destruct (eqb x v) eqn:E; [by eexists|].
  apply elem_of_cons in Hin as [->|Hin]; [congruence|].
  destruct (IH Hin Hv) as [i ->]. by eexists.
Qed.

(** [dist_list.index(min(dist_list))] is the lowest index of a minimal
    distance. *)
Lemma min_index_first_minimum (l : list D) :
  l ≠ [] →
  ∃ i d, FR.min_index ltb eqb l = inr i ∧ l !! i = Some d ∧
    (∀ j dj, l !! j = Some dj → ltb dj d = false) ∧
    (∀ j dj, j < i → l !! j = Some dj → ltb d dj = true).
Proof.
  intros Hne. destruct (py_min_spec l Hne) as (m & Hm & Hin & Hle).
  unfold FR.min_index. rewrite Hm.
  assert (Hmm : eqb m m = true).
  { apply (FR.eq_iff _ _ order). split; apply lt_irrefl. }
  destruct (py_index_found l m m Hin Hmm) as [i Hi].
  destruct (py_index_inr l m i Hi) as (d & Hd & Hdm & Hfirst).
  apply (FR.eq_iff _ _ order) in Hdm as [Hdm Hmd].
  exists i, d. repeat split; [done..| |].
  - intros j dj Hj.
    eapply (FR.lt_negtrans _ _ order); [|exact Hmd].
    apply Hle. by eapply list_elem_of_lookup_2.
  - intros j dj Hlt Hj.
    destruct (ltb d dj) eqn:E; [done|].
    assert (Hjm : eqb dj m = true).
    { apply (FR.eq_iff _ _ order). split.
      - apply Hle. by eapply list_elem_of_lookup_2.
      - by eapply (FR.lt_negtrans _ _ order); [exact Hmd|]. }
    by rewrite (Hfirst j dj Hlt Hj) in Hjm.
Qed.

End MatcherFacts.

Lemma Z_comparable : FR.comparable Z.ltb Z.eqb.
Proof.
  split.
  - intros x y H. apply Z.ltb_lt in H. apply Z.ltb_ge. lia.
  - intros x y z H1 H2. apply Z.ltb_ge in H1, H2. apply Z.ltb_ge. lia.
  - intros x y. rewrite Z.eqb_eq, !Z.ltb_ge. lia.
Qed.

Section RecognitionMatcher.

Context {Image Tensor Model Emb D : Type}.
Variable env : FR.Env Image Tensor Model Emb D.

(** On a non-empty, aligned database the matcher returns one of the
    labels. *)
Lemma nearest_returns_label (emb : Emb)
    (embedding_list : list Emb) (name_list : list string) :
  FR.comparable (FR.dist_ltb env) (FR.dist_eqb env) →
  embedding_list ≠ [] →
  length name_list = length embedding_list →
  ∃ label, FR.nearest env emb (embedding_list, name_list) = inr label ∧
           label ∈ name_list.
Proof.
  intros Hord Hne Hlen.
  destruct (min_index_first_minimum _ _ Hord (FR.torch_dist env emb <$> embedding_list))
    as (i & d & Hi & Hd & _).
  { by destruct embedding_list. }
  destruct (lookup_lt_is_Some_2 name_list i) as [label Hlabel].
  { rewrite Hlen, <-(length_fmap (FR.torch_dist env emb)). by eapply lookup_lt_Some. }
  exists label. unfold FR.nearest. simpl. rewrite Hi, Hlabel.
  split; [done|]. by eapply list_elem_of_lookup_2.
Qed.

(** C2. The matcher is a function of the embedding and the database alone
    (it takes no state). On a non-empty database whose two sequences are
    aligned it returns the label at an index [i] whose distance no other
    entry is below, and every entry before [i] is strictly farther: the
    lowest index among the entries at minimal distance. *)
Theorem nearest_is_first_minimum (emb : Emb)
    (embedding_list : list Emb) (name_list : list string) :
  FR.comparable (FR.dist_ltb env) (FR.dist_eqb env) →
  embedding_list ≠ [] →
  length name_list = length embedding_list →
  ∃ i e label,
    FR.nearest env emb (embedding_list, name_list) = inr label ∧
    embedding_list !! i = Some e ∧ name_list !! i = Some label ∧
    (∀ j ej, embedding_list !! j = Some ej →
       FR.dist_ltb env (FR.torch_dist env emb ej) (FR.torch_dist env emb e) = false) ∧
    (∀ j ej, j < i → embedding_list !! j = Some ej →
       FR.dist_ltb env (FR.torch_dist env emb e) (FR.torch_dist env emb ej) = true).
Proof.
  intros Hord Hne Hlen.
  destruct (min_index_first_minimum _ _ Hord (FR.torch_dist env emb <$> embedding_list))
    as (i & d & Hi & Hd & Hmin & Hfirst).
  { by destruct embedding_list. }
  apply list_lookup_fmap_Some in Hd as (e & -> & He).
  destruct (lookup_lt_is_Some_2 name_list i) as [label Hlabel].
  { rewrite Hlen. by eapply lookup_lt_Some. }
  exists i, e, label. unfold FR.nearest. simpl. rewrite Hi, Hlabel.
  repeat split; [done..| |].
  - intros j ej Hj. apply (Hmin j). by rewrite list_lookup_fmap, Hj.
  - intros j ej Hlt Hj. apply (Hfirst j); [done|]. by rewrite list_lookup_fmap, Hj.
Qed.

End RecognitionMatcher.

(** The distances 4, 0, 2, 0 of a crop of five bytes: the second entry
    wins over the equally close fourth one. *)
Lemma nearest_is_first_minimum_witness :
  ∃ i e label,
    FR.nearest (Demo.fr_env Demo.database) 5%Z
      ([9; 5; 7; 5]%Z, ["alice"; "bob"; "carol"; "dave"]) = inr label ∧
    [9; 5; 7; 5]%Z !! i = Some e ∧
    ["alice"; "bob"; "carol"; "dave"] !! i = Some label ∧
    (∀ j ej, [9; 5; 7; 5]%Z !! j = Some ej →
       (Z.abs (5 - ej) <? Z.abs (5 - e))%Z = false) ∧
    (∀ j ej, j < i → [9; 5; 7; 5]%Z !! j = Some ej →
       (Z.abs (5 - e) <? Z.abs (5 - ej))%Z = true).
Proof.
  apply (nearest_is_first_minimum (Demo.fr_env Demo.database) 5%Z
           [9; 5; 7; 5]%Z ["alice"; "bob"; "carol"; "dave"]).
  - exact Z_comparable.
  - discriminate.
  - reflexivity.
Defined.

Example nearest_tie :
  FR.nearest (Demo.fr_env Demo.database) 5%Z
    ([9; 5; 7; 5]%Z, ["alice"; "bob"; "carol"; "dave"]) = inr "bob".
Proof. reflexivity. Qed.

(** The spec's example: distances 5, 1, 3 with labels a, b, c give b. *)
Example nearest_5_1_3 :
  FR.nearest (Demo.fr_env Demo.database) 0%Z ([5; 1; 3]%Z, ["a"; "b"; "c"])
  = inr "b".
Proof. reflexivity. Qed.

(** ** The detection component *)
Section DetectionFacts.

Context {Image Face : Type}.
Variable env : FD.Env Image Face.

Ltac unfold_fd :=
  unfold FD.on_stream_event, FD.try_event, FD.utf8_decode, FD.process_message,
    FD.face_detection_func, FD.send_message, FD.read_file, FD.write_file,
    FD.seen_add, FD.record_call, FD.print in *;
  unfold_m.

(** One delivery never forgets a request id, and publishes at most one
    message; when it publishes one, the message carries the request id of
    the event, which was new and is now recorded. *)
Lemma on_stream_event_step evt s :
  let s' := FD.on_stream_event env evt s in
  FD.seen_req_ids s ⊆ FD.seen_req_ids s' ∧
  (FD.sent s' = FD.sent s ∨
   ∃ url body r,
     FD.event_request_id evt = Some r ∧ (r ∉ FD.seen_req_ids s) ∧
     (r ∈ FD.seen_req_ids s') ∧
     FD.sent s' = FD.sent s ++ [(url, body)] ∧ body !! "request_id" = Some r).
Proof.
  unfold_fd.
  destruct evt as [|[| |body]]; simpl; try (split; [done|by left]).
  run_cases; try (split; [set_solver|by left]).
  all: split; [set_solver|right; do 3 eexists; split_and!; (done || set_solver)].
Qed.

(** A delivery whose request id is already recorded changes nothing but
    the standard output. *)
Lemma seen_event_discarded evt s r :
  FD.event_request_id evt = Some r → r ∈ FD.seen_req_ids s →
  let s' := FD.on_stream_event env evt s in
  FD.seen_req_ids s' = FD.seen_req_ids s ∧ FD.files s' = FD.files s ∧
  FD.sent s' = FD.sent s ∧ FD.calls s' = FD.calls s.
Proof.
  destruct evt as [|[| |body]]; simpl; try done.
  intros Hr Hin. unfold_fd. simpl. rewrite Hr. simpl.
  destruct (body !! "encoded"); simpl; [|done].
  by rewrite decide_True.
Qed.

Lemma published_for_snoc r s (sent' : list (string * gmap string string)) url body :
  sent' = FD.sent s ++ [(url, body)] →
  body !! "request_id" ≠ Some r →
  filter (λ m, m.2 !! "request_id" = Some r) sent' = FD.published_for r s.
Proof.
  intros -> Hne. unfold FD.published_for.
  rewrite filter_app, filter_cons_False, filter_nil; [|done].
  by rewrite app_nil_r.
Qed.

(** Once [r] is recorded, no delivery publishes a message for [r]. *)
Lemma seen_blocks_publication evt s r :
  r ∈ FD.seen_req_ids s →
  FD.published_for r (FD.on_stream_event env evt s) = FD.published_for r s.
Proof.
  intros Hin. destruct (on_stream_event_step evt s) as [_ [Heq|Hpub]].
  - unfold FD.published_for. by rewrite Heq.
  - destruct Hpub as (url & body & r' & _ & Hnew & _ & Hsent & Hid).
    eapply published_for_snoc; [done|].
    rewrite Hid. intros [= ->]. done.
Qed.

Lemma deliver_seen_blocks evts s r :
  r ∈ FD.seen_req_ids s →
  r ∈ FD.seen_req_ids (FD.deliver env evts s) ∧
  FD.published_for r (FD.deliver env evts s) = FD.published_for r s.
Proof.
  revert s. induction evts as [|evt evts IH]; intros s Hin; [done|].
  simpl. destruct (on_stream_event_step evt s) as [Hmono _].
  destruct (IH (FD.on_stream_event env evt s)) as [Hin' Heq]; [by apply Hmono|].
  split; [done|]. rewrite Heq. by apply seen_blocks_publication.
Qed.

(** C5. Delivering the same event twice publishes at most one message for
    any request id [r]; and when the first delivery has recorded the id of
    the event, the second one is discarded at the gate: the SeenSet, the
    files, the published messages and the calls to base64, PIL, MTCNN and
    SQS are unchanged (only the two [print] lines before the gate are
    written). *)
Theorem duplicate_delivery_is_discarded evt s r :
  let s1 := FD.on_stream_event env evt s in
  let s2 := FD.on_stream_event env evt s1 in
  length (FD.published_for r s2) ≤ S (length (FD.published_for r s)) ∧
  (FD.event_request_id evt = Some r → r ∈ FD.seen_req_ids s1 →
   FD.seen_req_ids s2 = FD.seen_req_ids s1 ∧ FD.files s2 = FD.files s1 ∧
   FD.sent s2 = FD.sent s1 ∧ FD.calls s2 = FD.calls s1).
Proof.
  cbv zeta. split; [|by apply seen_event_discarded].
  set (s1 := FD.on_stream_event env evt s).
  assert (Hone : ∃ l, FD.sent (FD.on_stream_event env evt s1) = FD.sent s ++ l
                      ∧ length l ≤ 1).
  { destruct (on_stream_event_step evt s) as [_ [Heq|Hpub]].
    - destruct (on_stream_event_step evt s1) as [_ [Heq'|Hpub']].
      + exists []. rewrite Heq', app_nil_r. split; [done|simpl; lia].
      + destruct Hpub' as (url & body & _ & _ & _ & _ & Hsent & _).
        exists [(url, body)]. rewrite Hsent. subst s1. by rewrite Heq.
    - destruct Hpub as (url & body & r' & Hr' & _ & Hin & Hsent & _).
      destruct (seen_event_discarded evt s1 r' Hr' Hin) as (_ & _ & Heq' & _).
      exists [(url, body)]. by rewrite Heq'. }
  destruct Hone as (l & Hl & Hlen). unfold FD.published_for.
  rewrite Hl, filter_app, length_app.
  pose proof (length_filter (λ m : string * gmap string string,
                               m.2 !! "request_id" = Some r) l). lia.
Qed.

(** When the [try] block raises after the gate, the request id stays
    recorded and nothing was published. *)
Lemma failure_after_gate body encoded r s s1 exn :
  body !! "encoded" = Some encoded → body !! "request_id" = Some r →
  r ∉ FD.seen_req_ids s →
  FD.try_event env (FD.Text (Object body)) s = (s1, inl exn) →
  r ∈ FD.seen_req_ids s1 ∧ FD.sent s1 = FD.sent s.
Proof.
  intros Henc Hid Hnew. unfold_fd. simpl. rewrite Henc, Hid. simpl.
  rewrite decide_False by done. simpl.
  run_cases; intros; simplify_eq/=; (split; [set_solver|done]).
Qed.

(** C9. A request that passed the dedup gate (it has both required fields
    and its id was new) and whose processing then raised (base64, the file,
    PIL, MTCNN or SQS) stays in the SeenSet: nothing was published for it,
    and whatever is delivered afterwards, the same request included, no
    message for it is ever published by this instance. *)
Theorem failed_request_is_never_retried body encoded r s s1 exn evts :
  body !! "encoded" = Some encoded → body !! "request_id" = Some r →
  r ∉ FD.seen_req_ids s →
  FD.try_event env (FD.Text (Object body)) s = (s1, inl exn) →
  let s' := FD.on_stream_event env (FD.Text (Object body)) s in
  r ∈ FD.seen_req_ids s' ∧
  FD.published_for r s' = FD.published_for r s ∧
  r ∈ FD.seen_req_ids (FD.deliver env evts s') ∧
  FD.published_for r (FD.deliver env evts s') = FD.published_for r s.
Proof.
  intros Henc Hid Hnew Hfail s'.
  destruct (failure_after_gate _ _ _ _ _ _ Henc Hid Hnew Hfail) as [Hin Hsent].
  assert (Hs' : FD.seen_req_ids s' = FD.seen_req_ids s1 ∧ FD.sent s' = FD.sent s1).
  { subst s'. unfold FD.on_stream_event. by rewrite Hfail. }
  destruct Hs' as [Hseen' Hsent'].
  assert (Hin' : r ∈ FD.seen_req_ids s') by by rewrite Hseen'.
  assert (Hpub : FD.published_for r s' = FD.published_for r s).
  { unfold FD.published_for. by rewrite Hsent', Hsent. }
  destruct (deliver_seen_blocks evts s' r Hin') as [Hin'' Heq].
  split_and!; [done..|]. by rewrite Heq.
Qed.

(** What each queue holds after one more message. *)
Lemma queues_snoc s s' url body :
  FD.sent s' = FD.sent s ++ [(url, body)] →
  FD.response_queue env s' =
    FD.response_queue env s ++
      (if decide (url = FD.RESPONSE_QUEUE_URL env) then [body] else []) ∧
  FD.request_queue env s' =
    FD.request_queue env s ++
      (if decide (url = FD.REQUEST_QUEUE_URL env) then [body] else []).
Proof.
  intros Hsent. unfold FD.response_queue, FD.request_queue.
  rewrite Hsent, !filter_app, !fmap_app.
  split; f_equal; rewrite filter_cons, filter_nil; simpl; by case_decide.
Qed.

(** The state reached by a first delivery of a well-formed request, by
    the answer of the detector. *)
Lemma first_delivery body encoded req_id raw_bytes img s :
  body !! "encoded" = Some encoded → body !! "request_id" = Some req_id →
  req_id ∉ FD.seen_req_ids s →
  FD.b64decode env encoded = Some raw_bytes →
  FD.image_open env raw_bytes = Some img →
  (∀ path, FD.writable env path = true) →
  (∀ url message, FD.sqs_accepts env url message = true) →
  let s' := FD.on_stream_event env (FD.Text (Object body)) s in
  let fname := default "" (body !! "filename") in
  match FD.mtcnn env img with
  | inr None =>
      FD.sent s' = FD.sent s ++
        [(FD.RESPONSE_QUEUE_URL env,
          <["request_id" := req_id]>
            (<["result" := "No-Face"]> (<["filename" := fname]> ∅)))]
  | inr (Some face) =>
      FD.sent s' = FD.sent s ++
        [(FD.REQUEST_QUEUE_URL env,
          <["request_id" := req_id]>
            (<["face_image" := FD.b64encode env (FD.face_jpeg env face)]>
               (<["filename" := fname]> ∅)))]
  | inl _ => FD.sent s' = FD.sent s
  end.
Proof.
  intros Henc Hid Hnew Hdec Himg Hw Hsqs. unfold_fd. simpl.
  rewrite Henc, Hid. simpl. rewrite decide_False by done. simpl.
  rewrite Hdec. simpl. rewrite !Hw. simpl. rewrite lookup_insert_eq. simpl.
  rewrite Himg. simpl.
  destruct (FD.mtcnn env img) as [e|[face|]]; simpl; [done| |].
  - rewrite ?Hw. simpl. rewrite lookup_insert_eq. simpl. by rewrite Hsqs.
  - by rewrite Hsqs.
Qed.

(** C3. A first delivery of a request whose image decodes: when the
    detector reports no face, the response queue gains exactly the Result
    [{request_id, result: "No-Face", filename}] and the work queue gains
    nothing; when it reports a face, the work queue gains exactly the
    WorkItem [{request_id, face_image, filename}] holding the encoded crop
    and the response queue gains nothing. *)
Theorem detection_routes body encoded req_id raw_bytes img s :
  FD.REQUEST_QUEUE_URL env ≠ FD.RESPONSE_QUEUE_URL env →
  body !! "encoded" = Some encoded → body !! "request_id" = Some req_id →
  req_id ∉ FD.seen_req_ids s →
  FD.b64decode env encoded = Some raw_bytes →
  FD.image_open env raw_bytes = Some img →
  (∀ path, FD.writable env path = true) →
  (∀ url message, FD.sqs_accepts env url message = true) →
  let s' := FD.on_stream_event env (FD.Text (Object body)) s in
  let fname := default "" (body !! "filename") in
  (FD.mtcnn env img = inr None →
   FD.response_queue env s' =
     FD.response_queue env s ++
       [<["request_id" := req_id]>
          (<["result" := "No-Face"]> (<["filename" := fname]> ∅))] ∧
   FD.request_queue env s' = FD.request_queue env s) ∧
  (∀ face, FD.mtcnn env img = inr (Some face) →
   FD.request_queue env s' =
     FD.request_queue env s ++
       [<["request_id" := req_id]>
          (<["face_image" := FD.b64encode env (FD.face_jpeg env face)]>
             (<["filename" := fname]> ∅))] ∧
   FD.response_queue env s' = FD.response_queue env s).
Proof.
  intros Hurl Henc Hid Hnew Hdec Himg Hw Hsqs s' fname.
  pose proof (first_delivery _ _ _ _ _ s Henc Hid Hnew Hdec Himg Hw Hsqs) as Hrun.
  cbv zeta in Hrun. fold s' fname in Hrun.
  split; [intros Hface|intros face Hface]; rewrite Hface in Hrun;
    destruct (queues_snoc _ _ _ _ Hrun) as [Hresp Hreq];
    rewrite Hresp, Hreq; repeat case_decide; try done;
    by rewrite ?app_nil_r.
Qed.

(** C8. Malformed input is dropped: nothing is published for it, and
    [on_stream_event] returns normally (it is a total function: the
    exception does not leave it). Unless the event is discarded as a
    duplicate before the image is looked at, the last line printed is the
    error caught. *)
Theorem malformed_input_is_dropped evt s :
  FD.malformed env evt = true →
  let s' := FD.on_stream_event env evt s in
  FD.sent s' = FD.sent s ∧
  ((∀ r, FD.event_request_id evt = Some r → r ∉ FD.seen_req_ids s) →
   ∃ exn, last (FD.stdout s') = Some (FD.Error exn)).
Proof.
  unfold FD.malformed.
  destruct evt as [|[| |body]]; simpl; intros Hbad.
  1-3: by (split; [done|intros _; eexists; unfold_fd; simpl; apply last_snoc]).
  unfold_fd. simpl.
  destruct (body !! "encoded") as [encoded|] eqn:Henc; simpl;
    [|by (split; [done|intros _; eexists; apply last_snoc])].
  destruct (body !! "request_id") as [r|] eqn:Hid; simpl;
    [|by (split; [done|intros _; eexists; apply last_snoc])].
  destruct (decide (r ∈ FD.seen_req_ids s)) as [Hin|Hnew]; simpl.
  { split; [done|]. intros Hfresh. by destruct (Hfresh r eq_refl). }
  destruct (FD.b64decode env encoded) as [raw_bytes|]; simpl;
    [|by (split; [done|intros _; eexists; apply last_snoc])].
  destruct (FD.writable env _); simpl;
    [|by (split; [done|intros _; eexists; apply last_snoc])].
  rewrite lookup_insert_eq. simpl.
  destruct (FD.image_open env raw_bytes); [done|]. simpl.
  by (split; [done|intros _; eexists; apply last_snoc]).
Qed.

End DetectionFacts.

(** ** The recognition Lambda *)
Section RecognitionFacts.

Context {Image Tensor Model Emb D : Type}.
Variable env : FR.Env Image Tensor Model Emb D.

Ltac unfold_fr :=
  unfold FR.process_record, FR.face_recognition_func, FR.send_message,
    FR.read_file, FR.open_wb, FR.f_write, FR.record_call in *;
  unfold_m.

(** [torch.tensor] always yields a tensor: [face_recognition_func] never
    takes its [else] branch, so it never returns [None]. *)
Lemma face_recognition_func_not_None model_path model_wt_path face_img_path s :
  (FR.face_recognition_func env model_path model_wt_path face_img_path s).2
  ≠ inr None.
Proof. unfold_fr. simpl. run_cases. Qed.

(** One record either raises, publishing nothing, or publishes exactly one
    message, [{request_id, result}], after one load of the database and
    one load of the model. *)
Lemma process_record_cases model_path model_wt_path record s :
  let run := FR.process_record env model_path model_wt_path record s in
  (∃ e, run.2 = inl e ∧ FR.sent run.1 = FR.sent s) ∨
  (∃ request_id result,
     run.2 = inr () ∧
     getitem (S := unit) (FR.body record) "request_id" () = ((), inr request_id) ∧
     FR.sent run.1 =
       FR.sent s ++ [(FR.RESPONSE_QUEUE_URL env,
                      <["request_id" := request_id]> (<["result" := result]> ∅))] ∧
     FR.database_loads run.1 = S (FR.database_loads s) ∧
     FR.model_loads run.1 = S (FR.model_loads s)).
Proof.
  unfold FR.database_loads, FR.model_loads. unfold_fr.
  destruct record as [[| |body]]; simpl; try (left; by eexists).
  run_cases; try (left; by eexists).
  all: right; do 2 eexists; split_and!; try done.
  all: rewrite !filter_app, !length_app; simpl; lia.
Qed.

(** The loop stops at the first record that raises. *)
Lemma for_records_cases model_path model_wt_path records s :
  let run := FR.for_records env model_path model_wt_path records s in
  (run.2 = inr () →
   length (FR.sent run.1) = length (FR.sent s) + length records ∧
   FR.database_loads run.1 = FR.database_loads s + length records ∧
   FR.model_loads run.1 = FR.model_loads s + length records) ∧
  (∀ m, m ∈ FR.sent run.1 → m ∈ FR.sent s ∨ m.2 !! "filename" = None).
Proof.
  revert s. induction records as [|record rest IH]; intros s; simpl.
  { split; [intros _; lia|auto]. }
  unfold mbind, M_bind, bind.
  destruct (process_record_cases model_path model_wt_path record s)
    as [(e & He & Hsent)|(request_id & result & Hok & _ & Hsent & Hdb & Hmodel)];
    destruct (FR.process_record env model_path model_wt_path record s)
      as [s1 r]; simpl in *; subst r; simpl.
  - split; [done|]. intros m. rewrite Hsent. auto.
  - destruct (IH s1) as [Hcount Hfilename]. split.
    + intros Hrun. destruct (Hcount Hrun) as (Hn & Hd & Hm).
      rewrite Hn, Hd, Hm, Hsent, length_app, Hdb, Hmodel. simpl. lia.
    + intros m Hm. destruct (Hfilename m Hm) as [Hin|Hnone]; [|by right].
      rewrite Hsent in Hin. apply elem_of_app in Hin as [Hin|Hin]; [by left|].
      apply list_elem_of_singleton in Hin as ->. right. simpl.
      by rewrite !lookup_insert_ne, lookup_empty.
Qed.

(** C7, as the code has it. The database and the model are loaded inside
    [face_recognition_func], hence once for every WorkItem: a batch that
    the handler completes (status 200) has loaded each of them as many
    times as it has WorkItems. *)
Theorem resources_loaded_per_work_item event s :
  let run := FR.handler env event s in
  FR.statusCode run.2 = 200%Z →
  FR.database_loads run.1 = FR.database_loads s + length event ∧
  FR.model_loads run.1 = FR.model_loads s + length event.
Proof.
  unfold FR.handler, FR.async_handler. unfold mbind, M_bind, bind, mret, M_ret, ret.
  set (model_path := FR.os_path_join env _ "resnetV1.pt").
  set (model_wt_path := FR.os_path_join env _ "resnetV1_video_weights.pt").
  destruct (for_records_cases model_path model_wt_path event s) as [Hcount _].
  destruct (FR.for_records env model_path model_wt_path event s) as [s1 [e|[]]];
    simpl in *; [done|].
  intros _. by destruct (Hcount eq_refl) as (_ & Hd & Hm).
Qed.

(** An empty database makes the matcher raise. *)
Lemma nearest_empty emb (saved_data : list Emb * list string) :
  saved_data.1 = [] ∨ saved_data.2 = [] →
  ∃ e, FR.nearest env emb saved_data = inl e.
Proof.
  destruct saved_data as [embedding_list name_list]. simpl.
  unfold FR.nearest. simpl. intros [->| ->]; simpl; [by eexists|].
  destruct (FR.min_index _ _ _); by eexists.
Qed.

(** C6. With an empty reference database (no embeddings or no labels)
    [face_recognition_func] returns nothing at all, neither a label nor
    [None]: it raises. Hence the handler publishes no Result, in particular
    no "Unknown", and a batch with a WorkItem in it ends in the 500
    response. *)
Theorem empty_database_is_an_error event s :
  (∀ path saved_data, FR.torch_load env path = Some saved_data →
     saved_data.1 = [] ∨ saved_data.2 = []) →
  (∀ model_path model_wt_path face_img_path s0,
     ∃ e, (FR.face_recognition_func env model_path model_wt_path face_img_path s0).2
          = inl e) ∧
  FR.sent (FR.handler env event s).1 = FR.sent s ∧
  (event ≠ [] → FR.statusCode (FR.handler env event s).2 = 500%Z).
Proof.
  intros Hempty.
  assert (Hfunc : ∀ model_path model_wt_path face_img_path s0,
    ∃ e, (FR.face_recognition_func env model_path model_wt_path face_img_path s0).2
         = inl e).
  { intros. unfold_fr. simpl.
    destruct (FR.files s0 !! face_img_path); simpl; [|by eexists].
    destruct (FR.image_open env _); simpl; [|by eexists].
    destruct (FR.torch_load env _) as [saved_data|] eqn:Hload; simpl; [|by eexists].
    destruct (FR.jit_load env _); simpl; [|by eexists].
    destruct (FR.forward env _ _) as [emb|]; simpl; [|by eexists].
    destruct (nearest_empty emb saved_data (Hempty _ _ Hload)) as [e ->].
    by eexists. }
  assert (Hrecord : ∀ model_path model_wt_path record s0,
    ∃ e, (FR.process_record env model_path model_wt_path record s0).2 = inl e ∧
         FR.sent (FR.process_record env model_path model_wt_path record s0).1
         = FR.sent s0).
  { intros. unfold FR.process_record. unfold_m.
    destruct record as [[| |body]]; simpl; try by eexists.
    destruct (body !! "request_id"); simpl; [|by eexists].
    destruct (body !! "face_image"); simpl; [|by eexists].
    destruct (body !! "filename"); simpl; [|by eexists].
    unfold FR.open_wb, FR.f_write. unfold_m.
    destruct (FR.writable env _); simpl; [|by eexists].
    destruct (FR.b64decode env _); simpl; [|by eexists].
    match goal with
    | |- context [FR.face_recognition_func env ?a ?b ?c ?st] =>
        destruct (Hfunc a b c st) as [e He];
        assert (Hs : FR.sent (FR.face_recognition_func env a b c st).1 = FR.sent st)
          by (unfold_fr; simpl; run_cases);
        destruct (FR.face_recognition_func env a b c st) as [st_after res]
    end.
    simpl in *. subst res. by eexists. }
  split; [exact Hfunc|].
  unfold FR.handler, FR.async_handler. unfold mbind, M_bind, bind, mret, M_ret, ret.
  destruct event as [|record rest]; simpl; [done|].
  unfold mbind, M_bind, bind.
  match goal with
  | |- context [FR.process_record env ?a ?b ?c ?st] =>
      destruct (Hrecord a b c st) as (e & He & Hs);
      destruct (FR.process_record env a b c st) as [st_after res]
  end.
  simpl in *. subst res. done.
Qed.

(** C10, as the code has it. For a WorkItem whose crop decodes, with the
    model and a non-empty aligned database loaded and the forward pass
    succeeding, [face_recognition_func] returns a label of the database
    (never [None]: its [else] branch is not reachable), and the handler
    publishes that label as the result, except that an empty label, being
    false in Python, is published as "Unknown". *)
Theorem decodable_crop_gets_nearest_label
    model_path model_wt_path record body request_id face_base64 filename
    raw face_pil embedding_list name_list resnet emb s :
  FR.body record = Object body →
  body !! "request_id" = Some request_id →
  body !! "face_image" = Some face_base64 →
  body !! "filename" = Some filename →
  FR.writable env "/tmp/face.jpg" = true →
  FR.b64decode env face_base64 = Some raw →
  FR.image_open env raw = Some face_pil →
  FR.torch_load env model_wt_path = Some (embedding_list, name_list) →
  embedding_list ≠ [] →
  length name_list = length embedding_list →
  FR.comparable (FR.dist_ltb env) (FR.dist_eqb env) →
  FR.jit_load env model_path = Some resnet →
  FR.forward env resnet (FR.to_tensor env face_pil) = Some emb →
  (∀ url message, FR.sqs_accepts env url message = true) →
  ∃ label,
    label ∈ name_list ∧
    FR.nearest env emb (embedding_list, name_list) = inr label ∧
    let run := FR.process_record env model_path model_wt_path record s in
    run.2 = inr () ∧
    FR.sent run.1 =
      FR.sent s ++
        [(FR.RESPONSE_QUEUE_URL env,
          <["request_id" := request_id]>
            (<["result" := if String.eqb label "" then "Unknown" else label]> ∅))].
Proof.
  intros Hbody Hid Hface Hname Hw Hdec Himg Hload Hne Hlen Hord Hjit Hfwd Hsqs.
  destruct (nearest_returns_label env emb embedding_list name_list Hord Hne Hlen)
    as (label & Hnearest & Hin).
  exists label. split; [done|]. split; [done|].
  unfold_fr. simpl. rewrite Hbody. simpl. rewrite Hid, Hface, Hname. simpl.
  rewrite Hw. simpl. rewrite Hdec. simpl. rewrite lookup_insert_eq. simpl.
  rewrite Himg. simpl. rewrite Hload. simpl. rewrite Hjit. simpl.
  rewrite Hfwd. simpl. rewrite Hnearest. simpl. rewrite Hsqs. simpl.
  split; [done|]. by destruct (String.eqb label "").
Qed.

End RecognitionFacts.

(** ** The components run on explicit inputs *)

Lemma not_in_empty (r : string) : r ∉ (∅ : gset string).
Proof. apply not_elem_of_empty. Qed.

(** The same no-face request delivered twice: one Result, and the second
    delivery publishes nothing. *)
Lemma duplicate_delivery_is_discarded_witness :
  let evt := Demo.inbound "r1" "x" "a.jpg" in
  let s1 := FD.on_stream_event Demo.fd_env evt FD.init in
  let s2 := FD.on_stream_event Demo.fd_env evt s1 in
  length (FD.published_for "r1" s2) ≤ 1 ∧ FD.sent s2 = FD.sent s1 ∧
  FD.calls s2 = FD.calls s1.
Proof.
  destruct (duplicate_delivery_is_discarded Demo.fd_env
              (Demo.inbound "r1" "x" "a.jpg") FD.init "r1") as [Hone Hsame].
  split; [exact Hone|].
  destruct Hsame as (_ & _ & Hsent & Hcalls).
  - reflexivity.
  - apply (bool_decide_unpack _). vm_compute. exact I.
  - split; [exact Hsent|exact Hcalls].
Defined.

(** A request whose base64 text is rejected, then delivered again with a
    good image: nothing is ever published for it. *)
Lemma failed_request_is_never_retried_witness :
  let body : gmap string string :=
    <["request_id" := "r3"]> (<["encoded" := "!"]> (<["filename" := "c.jpg"]> ∅)) in
  let s' := FD.on_stream_event Demo.fd_env (FD.Text (Object body)) FD.init in
  let later := [Demo.inbound "r3" "face" "c.jpg"; Demo.inbound "r3" "x" "c.jpg"] in
  "r3" ∈ FD.seen_req_ids s' ∧
  FD.published_for "r3" s' = [] ∧
  "r3" ∈ FD.seen_req_ids (FD.deliver Demo.fd_env later s') ∧
  FD.published_for "r3" (FD.deliver Demo.fd_env later s') = [].
Proof.
  apply (failed_request_is_never_retried Demo.fd_env
           (<["request_id" := "r3"]> (<["encoded" := "!"]> (<["filename" := "c.jpg"]> ∅)))
           "!" "r3" FD.init
           (FD.try_event Demo.fd_env (Demo.inbound "r3" "!" "c.jpg") FD.init).1
           BinasciiError).
  - reflexivity.
  - reflexivity.
  - apply not_in_empty.
  - vm_compute. reflexivity.
Defined.

(** One request without a face and one with a face. *)
Lemma detection_routes_witness :
  let no_face := FD.on_stream_event Demo.fd_env (Demo.inbound "r1" "x" "a.jpg") FD.init in
  let face := FD.on_stream_event Demo.fd_env (Demo.inbound "r2" "face1" "b.jpg") FD.init in
  (FD.response_queue Demo.fd_env no_face =
     [<["request_id" := "r1"]> (<["result" := "No-Face"]> (<["filename" := "a.jpg"]> ∅))] ∧
   FD.request_queue Demo.fd_env no_face = []) ∧
  (FD.request_queue Demo.fd_env face =
     [<["request_id" := "r2"]> (<["face_image" := "face1"]> (<["filename" := "b.jpg"]> ∅))] ∧
   FD.response_queue Demo.fd_env face = []).
Proof.
  split.
  - destruct (detection_routes Demo.fd_env
                (<["request_id" := "r1"]> (<["encoded" := "x"]> (<["filename" := "a.jpg"]> ∅)))
                "x" "r1" (Demo.of_string "x") (Demo.of_string "x") FD.init)
      as [Hno_face _].
    + discriminate.
    + reflexivity.
    + reflexivity.
    + apply not_in_empty.
    + reflexivity.
    + reflexivity.
    + intros path. reflexivity.
    + intros url message. reflexivity.
    + exact (Hno_face eq_refl).
  - destruct (detection_routes Demo.fd_env
                (<["request_id" := "r2"]> (<["encoded" := "face1"]> (<["filename" := "b.jpg"]> ∅)))
                "face1" "r2" (Demo.of_string "face1") (Demo.of_string "face1") FD.init)
      as [_ Hface].
    + discriminate.
    + reflexivity.
    + reflexivity.
    + apply not_in_empty.
    + reflexivity.
    + reflexivity.
    + intros path. reflexivity.
    + intros url message. reflexivity.
    + exact (Hface (Demo.of_string "face1") eq_refl).
Defined.

(** Rejected base64 text, and an object without [encoded]. *)
Lemma malformed_input_is_dropped_witness :
  let bad_image := FD.on_stream_event Demo.fd_env (Demo.inbound "r3" "!" "c.jpg") FD.init in
  (FD.sent bad_image = [] ∧
   ∃ exn, last (FD.stdout bad_image) = Some (FD.Error exn)).
Proof.
  destruct (malformed_input_is_dropped Demo.fd_env
              (Demo.inbound "r3" "!" "c.jpg") FD.init) as [Hsent Hlog].
  - reflexivity.
  - split; [exact Hsent|]. apply Hlog. intros r _. apply not_in_empty.
Defined.

Example missing_encoded_is_dropped :
  let evt := FD.Text (Object (<["request_id" := "r4"]> ∅)) in
  let s' := FD.on_stream_event Demo.fd_env evt FD.init in
  FD.sent s' = [] ∧ FD.seen_req_ids s' = ∅ ∧
  FD.stdout s' = [FD.ReceivedEvent; FD.Error (KeyError "encoded")].
Proof. vm_compute. done. Qed.

(** Every Result that the recognition Lambda publishes is without a
    [filename] key. *)
Lemma handler_results_lack_filename
    {Image Tensor Model Emb D : Type} (env : FR.Env Image Tensor Model Emb D)
    event s m :
  m ∈ FR.sent (FR.handler env event s).1 →
  m ∈ FR.sent s ∨ m.2 !! "filename" = None.
Proof.
  unfold FR.handler, FR.async_handler. unfold mbind, M_bind, bind, mret, M_ret, ret.
  set (model_path := FR.os_path_join env _ "resnetV1.pt").
  set (model_wt_path := FR.os_path_join env _ "resnetV1_video_weights.pt").
  destruct (for_records_cases env model_path model_wt_path event s) as [_ Hfilename].
  destruct (FR.for_records env model_path model_wt_path event s) as [s1 [e|[]]];
    simpl in *; apply Hfilename.
Qed.

(** A record that raises ends the loop: the records after it have no
    influence on what the handler does. *)
Lemma first_failure_aborts_batch
    {Image Tensor Model Emb D : Type} (env : FR.Env Image Tensor Model Emb D)
    model_path model_wt_path record rest s s1 e :
  FR.process_record env model_path model_wt_path record s = (s1, inl e) →
  FR.for_records env model_path model_wt_path (record :: rest) s = (s1, inl e).
Proof. intros Hfail. simpl. unfold mbind, M_bind, bind. by rewrite Hfail. Qed.

(** C1. The inbound event [{request_id: "r2", encoded: "face1", filename:
    "b.jpg"}] goes through both stages: the WorkItem carries request id
    and filename, the Result published by the recognition Lambda carries
    the request id and the label but no filename. *)
Theorem recognition_result_drops_filename :
  let detected :=
    FD.on_stream_event Demo.fd_env (Demo.inbound "r2" "face1" "b.jpg") FD.init in
  let batch := (λ body, FR.mkRecord (Object body)) <$>
                 FD.request_queue Demo.fd_env detected in
  let run := FR.handler (Demo.fr_env Demo.database) batch FR.init in
  (λ body : gmap string string, body !! "filename") <$>
    FD.request_queue Demo.fd_env detected = [Some "b.jpg"] ∧
  FR.statusCode run.2 = 200%Z ∧
  ∃ result,
    FR.response_queue (Demo.fr_env Demo.database) run.1 = [result] ∧
    result !! "request_id" = Some "r2" ∧
    result !! "result" = Some "bob" ∧
    result !! "filename" = None.
Proof.
  split; [by vm_compute|]. split; [by vm_compute|].
  exists (<["request_id" := "r2"]> (<["result" := "bob"]> ∅)).
  split; [by vm_compute|]. by vm_compute.
Qed.

(** C4. A batch of two WorkItems, the first with a degenerate crop on
    which the forward pass raises: the handler answers 500 and nothing is
    published, neither "Unknown" for the first WorkItem nor any Result for
    the second. *)
Theorem embedding_failure_aborts_batch :
  let batch := [Demo.work_item "r1" "a" "a.jpg";
                Demo.work_item "r2" "abcdefghi" "b.jpg"] in
  let run := FR.handler (Demo.fr_env Demo.database) batch FR.init in
  run.2 = FR.mkResponse 500 (FR.ErrorInFaceRecognition RuntimeError) ∧
  FR.sent run.1 = [] ∧
  FR.sent (FR.handler (Demo.fr_env Demo.database)
             [Demo.work_item "r2" "abcdefghi" "b.jpg"] FR.init).1
  = [("response-queue", <["request_id" := "r2"]> (<["result" := "alice"]> ∅))].
Proof. by vm_compute. Qed.

(** C7 is not what the code does: a batch of two WorkItems loads the
    database twice and the model twice. *)
Lemma resources_loaded_once_counterexample :
  let batch := [Demo.work_item "r1" "abcde" "a.jpg";
                Demo.work_item "r2" "abcdefghi" "b.jpg"] in
  let run := FR.handler (Demo.fr_env Demo.database) batch FR.init in
  ¬ (FR.database_loads run.1 ≤ 1 ∧ FR.model_loads run.1 ≤ 1).
Proof. vm_compute. intros [H _]. lia. Qed.

Lemma resources_loaded_per_work_item_witness :
  let batch := [Demo.work_item "r1" "abcde" "a.jpg";
                Demo.work_item "r2" "abcdefghi" "b.jpg"] in
  let run := FR.handler (Demo.fr_env Demo.database) batch FR.init in
  FR.database_loads run.1 = 2 ∧ FR.model_loads run.1 = 2.
Proof.
  apply (resources_loaded_per_work_item (Demo.fr_env Demo.database)
           [Demo.work_item "r1" "abcde" "a.jpg";
            Demo.work_item "r2" "abcdefghi" "b.jpg"] FR.init).
  reflexivity.
Defined.

(** The empty database: nothing published, status 500. *)
Lemma empty_database_is_an_error_witness :
  let env := Demo.fr_env ([], []) in
  let run := FR.handler env [Demo.work_item "r1" "abcde" "a.jpg"] FR.init in
  FR.sent run.1 = [] ∧ FR.statusCode run.2 = 500%Z.
Proof.
  destruct (empty_database_is_an_error (Demo.fr_env ([], []))
              [Demo.work_item "r1" "abcde" "a.jpg"] FR.init)
    as (_ & Hsent & Hstatus).
  - intros path saved_data [= <-]. left. reflexivity.
  - split; [exact Hsent|]. apply Hstatus. discriminate.
Defined.

(** C10 is not what the code does: with a database whose nearest label is
    the empty string, a crop that decodes is answered "Unknown", which is
    no label of the database. *)
Lemma unknown_for_decodable_crop_counterexample :
  let saved_data := ([5; 9]%Z, [""; "bob"]) in
  let env := Demo.fr_env saved_data in
  let run := FR.handler env [Demo.work_item "r1" "abcde" "a.jpg"] FR.init in
  is_Some (Demo.image_open (Demo.of_string "abcde")) ∧
  saved_data.1 ≠ [] ∧
  ("Unknown" ∉ saved_data.2) ∧
  FR.response_queue env run.1 =
    [<["request_id" := "r1"]> (<["result" := "Unknown"]> ∅)].
Proof.
  split; [by eexists|]. split; [done|]. split; [|by vm_compute].
  intros Hin. apply list_elem_of_In in Hin. simpl in Hin.
  destruct Hin as [H|[H|[]]]; discriminate.
Qed.

Lemma decodable_crop_gets_nearest_label_witness :
  let env := Demo.fr_env Demo.database in
  ∃ label,
    label ∈ Demo.database.2 ∧
    FR.nearest env 5%Z Demo.database = inr label ∧
    let run := FR.process_record env "model" "weights"
                 (Demo.work_item "r1" "abcde" "a.jpg") FR.init in
    run.2 = inr () ∧
    FR.sent run.1 =
      [("response-queue",
        <["request_id" := "r1"]>
          (<["result" := if String.eqb label "" then "Unknown" else label]> ∅))].
Proof.
  apply (decodable_crop_gets_nearest_label (Demo.fr_env Demo.database)
           "model" "weights" (Demo.work_item "r1" "abcde" "a.jpg")
           (<["request_id" := "r1"]> (<["face_image" := "abcde"]>
              (<["filename" := "a.jpg"]> ∅)))
           "r1" "abcde" "a.jpg" (Demo.of_string "abcde") (Demo.of_string "abcde")
           [9; 5; 7]%Z ["alice"; "bob"; "carol"] tt 5%Z FR.init).
  - reflexivity.
  - reflexivity.
  - reflexivity.
  - reflexivity.
  - reflexivity.
  - reflexivity.
  - reflexivity.
  - reflexivity.
  - discriminate.
  - reflexivity.
  - exact Z_comparable.
  - reflexivity.
  - reflexivity.
  - intros url message. reflexivity.
Defined.

(** * Further properties of the detection component *)
Section DetectionLifetime.

Context {Image Face : Type}.
Variable env : FD.Env Image Face.

Ltac unfold_fd :=
  unfold FD.on_stream_event, FD.try_event, FD.utf8_decode, FD.process_message,
    FD.face_detection_func, FD.send_message, FD.read_file, FD.write_file,
    FD.seen_add, FD.record_call, FD.print in *;
  unfold_m.

(** What one delivery can publish: nothing, the No-Face Result of the
    event, or a WorkItem of the event. *)
Lemma on_stream_event_publishes evt s :
  let s' := FD.on_stream_event env evt s in
  FD.sent s' = FD.sent s ∨
  ∃ body r,
    evt = FD.Text (Object body) ∧ body !! "request_id" = Some r ∧
    (r ∉ FD.seen_req_ids s) ∧
    (FD.sent s' = FD.sent s ++
       [(FD.RESPONSE_QUEUE_URL env,
         FD.response_payload r (default "" (body !! "filename")))] ∨
     ∃ face_base64,
       FD.sent s' = FD.sent s ++
         [(FD.REQUEST_QUEUE_URL env,
           FD.payload r face_base64 (default "" (body !! "filename")))]).
Proof.
  unfold_fd. unfold FD.response_payload, FD.payload.
  destruct evt as [|[| |body]]; simpl; try by left.
  run_cases; try by left.
  all: right; do 2 eexists; split_and!; [done..|]; eauto.
Qed.

(** What one delivery does to the SeenSet and to the calls: either it
    leaves both alone, or it records one new id and decodes once, running
    the detector at most once. *)
Lemma on_stream_event_gate evt s :
  let s' := FD.on_stream_event env evt s in
  (FD.seen_req_ids s' = FD.seen_req_ids s ∧
   FD.decodings s' = FD.decodings s ∧
   FD.detector_runs s' = FD.detector_runs s) ∨
  ∃ r, (r ∉ FD.seen_req_ids s) ∧
       FD.seen_req_ids s' = {[r]} ∪ FD.seen_req_ids s ∧
       FD.decodings s' = S (FD.decodings s) ∧
       FD.detector_runs s' ≤ S (FD.detector_runs s).
Proof.
  unfold FD.decodings, FD.detector_runs. unfold_fd.
  destruct evt as [|[| |body]]; simpl; try by left.
  run_cases; try by left.
  all: right; eexists; split_and!; [done..| |];
    rewrite !filter_app, !length_app; simpl; lia.
Qed.

(** X1. Whatever is delivered, no request id ever leaves the SeenSet. *)
Theorem seen_set_only_grows evts s :
  FD.seen_req_ids s ⊆ FD.seen_req_ids (FD.deliver env evts s).
Proof.
  revert s. induction evts as [|evt evts IH]; intros s; simpl; [done|].
  destruct (on_stream_event_step env evt s) as [Hmono _].
  etrans; [exact Hmono|apply IH].
Qed.

Lemma recorded_step evt s :
  (∀ m, m ∈ FD.sent s →
     ∃ r, m.2 !! "request_id" = Some r ∧ r ∈ FD.seen_req_ids s) →
  ∀ m, m ∈ FD.sent (FD.on_stream_event env evt s) →
    ∃ r, m.2 !! "request_id" = Some r ∧
         r ∈ FD.seen_req_ids (FD.on_stream_event env evt s).
Proof.
  intros Hinv m Hm.
  destruct (on_stream_event_step env evt s) as [Hmono [Heq|Hpub]].
  - rewrite Heq in Hm. destruct (Hinv m Hm) as (r & Hr & Hin).
    exists r. split; [done|]. by apply Hmono.
  - destruct Hpub as (url & body & r & _ & _ & Hin & Hsent & Hid).
    rewrite Hsent in Hm. apply elem_of_app in Hm as [Hm|Hm].
    + destruct (Hinv m Hm) as (r' & Hr' & Hin'). exists r'.
      split; [done|]. by apply Hmono.
    + apply list_elem_of_singleton in Hm as ->. by exists r.
Qed.

(** X2. Every message the component has published since it started
    carries a request id, and that id is in the SeenSet. *)
Theorem published_ids_are_recorded evts m :
  m ∈ FD.sent (FD.deliver env evts FD.init) →
  ∃ r, m.2 !! "request_id" = Some r ∧
       r ∈ FD.seen_req_ids (FD.deliver env evts FD.init).
Proof.
  assert (Hgen : ∀ s,
    (∀ m, m ∈ FD.sent s →
       ∃ r, m.2 !! "request_id" = Some r ∧ r ∈ FD.seen_req_ids s) →
    ∀ m, m ∈ FD.sent (FD.deliver env evts s) →
       ∃ r, m.2 !! "request_id" = Some r ∧
            r ∈ FD.seen_req_ids (FD.deliver env evts s)).
  { induction evts as [|evt evts IH]; intros s Hinv; simpl; [done|].
    apply IH. by apply recorded_step. }
  revert m. apply Hgen. intros m Hm. by apply elem_of_nil in Hm.
Qed.

(** One delivery keeps: an id outside the SeenSet has no message, and no
    id has more than one. *)
Lemma one_message_step evt s :
  (∀ r, r ∉ FD.seen_req_ids s → FD.published_for r s = []) →
  (∀ r, length (FD.published_for r s) ≤ 1) →
  let s' := FD.on_stream_event env evt s in
  (∀ r, r ∉ FD.seen_req_ids s' → FD.published_for r s' = []) ∧
  (∀ r, length (FD.published_for r s') ≤ 1).
Proof.
  intros Hfresh Hone. cbv zeta.
  destruct (on_stream_event_step env evt s) as [Hmono [Heq|Hpub]].
  - unfold FD.published_for in *. rewrite Heq. split; [|done].
    intros r Hr. apply Hfresh. intros Hin. by apply Hr, Hmono.
  - destruct Hpub as (url & body & r' & _ & Hnew & Hin & Hsent & Hid).
    assert (Hother : ∀ r, r ≠ r' →
      FD.published_for r (FD.on_stream_event env evt s) = FD.published_for r s).
    { intros r Hne. eapply published_for_snoc; [done|].
      rewrite Hid. by intros [= ->]. }
    split; intros r.
    + intros Hr. rewrite Hother by (by intros ->).
      apply Hfresh. intros Hin'. by apply Hr, Hmono.
    + destruct (decide (r = r')) as [->|Hne]; [|by rewrite Hother].
      unfold FD.published_for. rewrite Hsent, filter_app, length_app.
      fold (FD.published_for r' s). rewrite (Hfresh r' Hnew).
      rewrite filter_cons_True by done. done.
Qed.

(** X3. During the lifetime of the component no request id gets more
    than one message, Result or WorkItem, whatever is delivered and
    however often. *)
Theorem at_most_one_message_per_request evts r :
  length (FD.published_for r (FD.deliver env evts FD.init)) ≤ 1.
Proof.
  assert (Hgen : ∀ s,
    (∀ r, r ∉ FD.seen_req_ids s → FD.published_for r s = []) →
    (∀ r, length (FD.published_for r s) ≤ 1) →
    ∀ r, length (FD.published_for r (FD.deliver env evts s)) ≤ 1).
  { induction evts as [|evt evts IH]; intros s Hfresh Hone; simpl; [done|].
    destruct (one_message_step evt s Hfresh Hone) as [Hfresh' Hone'].
    by apply IH. }
  apply Hgen; intros; simpl; [done|lia].
Qed.

Lemma messages_come_from_events_from evts s url m :
  (url, m) ∈ FD.sent (FD.deliver env evts s) →
  (url, m) ∈ FD.sent s ∨
  ∃ body r,
    FD.Text (Object body) ∈ evts ∧ body !! "request_id" = Some r ∧
    ((url = FD.RESPONSE_QUEUE_URL env ∧
      m = FD.response_payload r (default "" (body !! "filename"))) ∨
     ∃ face_base64,
       url = FD.REQUEST_QUEUE_URL env ∧
       m = FD.payload r face_base64 (default "" (body !! "filename"))).
Proof.
  revert s. induction evts as [|evt evts IH]; intros s; simpl; [by left|].
  intros Hm. destruct (IH _ Hm) as [Hin|(body & r & Hevt & Hr & Hshape)].
  - destruct (on_stream_event_publishes evt s)
      as [Heq|(body & r & -> & Hr & _ & Hshape)].
    + left. by rewrite <-Heq.
    + destruct Hshape as [Hsent|[face_base64 Hsent]];
        rewrite Hsent in Hin; apply elem_of_app in Hin as [Hin|Hin];
        try (by left); apply list_elem_of_singleton in Hin as [= -> ->];
        right; exists body, r; (split; [apply elem_of_cons; by left|]);
        (split; [done|]); eauto.
  - right. exists body, r. split; [apply elem_of_cons; by right|]. done.
Qed.

(** X4. Every published message stems from a delivered event: it has the
    request id of that event and its filename, or [""] when the event has
    no filename. The component invents no id and mixes up no filenames. *)
Theorem messages_come_from_events evts url m :
  (url, m) ∈ FD.sent (FD.deliver env evts FD.init) →
  ∃ body, FD.Text (Object body) ∈ evts ∧
          is_Some (m !! "request_id") ∧
          m !! "request_id" = body !! "request_id" ∧
          m !! "filename" = Some (default "" (body !! "filename")).
Proof.
  intros Hm.
  destruct (messages_come_from_events_from evts FD.init url m Hm)
    as [Hin|(body & r & Hevt & Hr & Hshape)]; [by apply elem_of_nil in Hin|].
  exists body. rewrite Hr. split; [done|].
  destruct Hshape as [[_ ->]|(face_base64 & _ & ->)];
    unfold FD.response_payload, FD.payload;
    split_and!; by simplify_map_eq.
Qed.

(** X5. What is on the queues: a message for the response queue is a
    No-Face Result without [face_image]; a message for the request queue
    has a [face_image] and no [result]. The detection component never
    publishes an identity. *)
Theorem published_message_shapes evts url m :
  (url, m) ∈ FD.sent (FD.deliver env evts FD.init) →
  (url = FD.RESPONSE_QUEUE_URL env ∧ m !! "result" = Some "No-Face" ∧
   m !! "face_image" = None ∧ dom m = {["request_id"; "result"; "filename"]}) ∨
  (url = FD.REQUEST_QUEUE_URL env ∧ is_Some (m !! "face_image") ∧
   m !! "result" = None ∧ dom m = {["request_id"; "face_image"; "filename"]}).
Proof.
  intros Hm.
  destruct (messages_come_from_events_from evts FD.init url m Hm)
    as [Hin|(body & r & _ & _ & Hshape)]; [by apply elem_of_nil in Hin|].
  destruct Hshape as [[-> ->]|(face_base64 & -> & ->)]; [left|right];
    unfold FD.response_payload, FD.payload;
    (split; [done|]); rewrite !dom_insert_L, dom_empty_L;
    split_and!; try done; set_solver.
Qed.

End DetectionLifetime.

Section DetectionCalls.

Context {Image Face : Type}.
Variable env : FD.Env Image Face.

Ltac unfold_fd :=
  unfold FD.on_stream_event, FD.try_event, FD.utf8_decode, FD.process_message,
    FD.face_detection_func, FD.send_message, FD.read_file, FD.write_file,
    FD.seen_add, FD.record_call, FD.print in *;
  unfold_m.

(** X6. The gate is the only way to the capabilities: since the start,
    base64 was asked to decode exactly once for every id in the SeenSet,
    and the detector ran at most that often. Redeliveries cost no
    detection. *)
Theorem one_decoding_per_recorded_id evts :
  let s := FD.deliver env evts FD.init in
  FD.decodings s = size (FD.seen_req_ids s) ∧
  FD.detector_runs s ≤ size (FD.seen_req_ids s).
Proof.
  assert (Hgen : ∀ s,
    FD.decodings s = size (FD.seen_req_ids s) →
    FD.detector_runs s ≤ size (FD.seen_req_ids s) →
    FD.decodings (FD.deliver env evts s) = size (FD.seen_req_ids (FD.deliver env evts s)) ∧
    FD.detector_runs (FD.deliver env evts s) ≤ size (FD.seen_req_ids (FD.deliver env evts s))).
  { induction evts as [|evt evts IH]; intros s Hdec Hrun; simpl; [done|].
    assert (Hsize : ∀ r, r ∉ FD.seen_req_ids s →
      size ({[r]} ∪ FD.seen_req_ids s) = S (size (FD.seen_req_ids s))).
    { intros r Hnew. rewrite size_union by by apply disjoint_singleton_l.
      by rewrite size_singleton. }
    destruct (on_stream_event_gate env evt s)
      as [(Hs & Hd & Hr)|(r & Hnew & Hs & Hd & Hr)];
      apply IH; rewrite Hs, ?Hd, ?Hr, ?Hsize by done; lia. }
  apply Hgen; [done|]. unfold FD.detector_runs. simpl. lia.
Qed.


(** X8. A payload that is rejected before the gate (not UTF-8, not JSON,
    not an object, or without [encoded] or [request_id]) uses up nothing:
    SeenSet, files, messages and calls are as before, so that its request
    id, if it has one, is still free. *)
Theorem rejection_before_gate_leaves_id_free evt s :
  match evt with
  | FD.Text (Object body) =>
      body !! "encoded" = None ∨ body !! "request_id" = None
  | _ => True
  end →
  let s' := FD.on_stream_event env evt s in
  FD.seen_req_ids s' = FD.seen_req_ids s ∧ FD.files s' = FD.files s ∧
  FD.sent s' = FD.sent s ∧ FD.calls s' = FD.calls s ∧
  ∃ exn, last (FD.stdout s') = Some (FD.Error exn).
Proof.
  unfold_fd.
  destruct evt as [|[| |body]]; simpl;
    try (intros _; split_and!; try done; eexists; apply last_snoc).
  intros [Hnone|Hnone]; rewrite Hnone; simpl.
  - split_and!; try done; eexists; apply last_snoc.
  - destruct (body !! "encoded"); simpl;
      split_and!; try done; eexists; apply last_snoc.
Qed.

End DetectionCalls.

(** * Further properties of the recognition Lambda *)
Section RecognitionBatch.

Context {Image Tensor Model Emb D : Type}.
Variable env : FR.Env Image Tensor Model Emb D.

Ltac unfold_fr :=
  unfold FR.process_record, FR.face_recognition_func, FR.send_message,
    FR.read_file, FR.open_wb, FR.f_write, FR.record_call in *;
  unfold_m.


(** A label that the matcher returns is one of the saved labels. *)
Lemma nearest_label_in emb (saved_data : list Emb * list string) label :
  FR.nearest env emb saved_data = inr label → label ∈ saved_data.2.
Proof.
  unfold FR.nearest. destruct (FR.min_index _ _ _) as [e|i]; [done|].
  destruct (saved_data.2 !! i) as [name|] eqn:Hname; [|done].
  intros [= <-]. by eapply list_elem_of_lookup_2.
Qed.

(** What a record that is processed publishes. *)
Lemma process_record_result model_path model_wt_path record s :
  let run := FR.process_record env model_path model_wt_path record s in
  run.2 = inr () →
  ∃ request_id result,
    FR.record_request_id record = Some request_id ∧
    FR.sent run.1 =
      FR.sent s ++ [(FR.RESPONSE_QUEUE_URL env,
                     <["request_id" := request_id]> (<["result" := result]> ∅))] ∧
    result ≠ "" ∧
    (result = "Unknown" ∨
     ∃ saved_data, FR.torch_load env model_wt_path = Some saved_data ∧
                   result ∈ saved_data.2).
Proof.
  unfold FR.record_request_id. unfold_fr.
  destruct record as [[| |body]]; simpl; try done.
  run_cases; intros _; do 2 eexists; split_and!; try done.
  - match goal with
    | H : negb (String.eqb _ _) = true |- _ =>
        apply negb_true_iff in H; by apply String.eqb_neq in H
    end.
  - right. eexists. split; [done|].
    match goal with
    | H : FR.nearest _ _ _ = inr _ |- _ => by apply nearest_label_in in H
    end.
  - by left.
Qed.

Lemma process_record_error model_path model_wt_path record s e :
  (FR.process_record env model_path model_wt_path record s).2 = inl e →
  FR.sent (FR.process_record env model_path model_wt_path record s).1 = FR.sent s.
Proof.
  destruct (process_record_cases env model_path model_wt_path record s)
    as [(e' & _ & Hsent)|(? & ? & Hok & _)]; [done|].
  cbv zeta in Hok. by rewrite Hok.
Qed.

(** The loop publishes the Results of the records it got through, in
    their order, and gets through all of them or stops at the one that
    raises. *)
Lemma for_records_results model_path model_wt_path records s :
  let run := FR.for_records env model_path model_wt_path records s in
  ∃ results,
    FR.sent run.1 = FR.sent s ++ results ∧
    (λ m, m.2 !! "request_id") <$> results =
      take (length results) (FR.record_request_id <$> records) ∧
    Forall (λ m, m.1 = FR.RESPONSE_QUEUE_URL env ∧
                 dom m.2 = {["request_id"; "result"]} ∧
                 ∃ result, m.2 !! "result" = Some result ∧ result ≠ "" ∧
                   (result = "Unknown" ∨
                    ∃ saved_data,
                      FR.torch_load env model_wt_path = Some saved_data ∧
                      result ∈ saved_data.2)) results ∧
    ((run.2 = inr () ∧ length results = length records) ∨
     ((∃ e, run.2 = inl e) ∧ length results < length records)).
Proof.
  revert s. induction records as [|record rest IH]; intros s; simpl.
  { exists []. rewrite app_nil_r. split_and!; try done. by left. }
  unfold mbind, M_bind, bind.
  pose proof (process_record_result model_path model_wt_path record s) as Hok.
  pose proof (process_record_error model_path model_wt_path record s) as Herr.
  destruct (FR.process_record env model_path model_wt_path record s)
    as [s1 [e|[]]]; simpl in *.
  - exists []. rewrite app_nil_r, (Herr e eq_refl). split_and!; try done.
    right. split; [by eexists|simpl; lia].
  - destruct (Hok eq_refl) as (request_id & result & Hid & Hsent & Hne & Hlabel).
    destruct (IH s1) as (results & Hsent' & Hids & Hall & Hend).
    exists ((FR.RESPONSE_QUEUE_URL env,
             <["request_id" := request_id]> (<["result" := result]> ∅)) :: results).
    split_and!.
    + by rewrite Hsent', Hsent, <-app_assoc.
    + rewrite !fmap_cons. cbn [length firstn]. rewrite Hid.
      f_equal; first [exact Hids|by simplify_map_eq].
    + constructor; [|done]. simpl. split_and!; [done| |].
      * rewrite !dom_insert_L, dom_empty_L. set_solver.
      * exists result. by simplify_map_eq.
    + destruct Hend as [[Hrun Hlen]|[Hfail Hlt]]; [left|right];
        (split; [done|simpl; lia]).
Qed.

(** X9. The handler publishes one Result for each WorkItem it got
    through, in the order of the batch and with the request id of the
    WorkItem. With status 200 that is the whole batch; with status 500 it
    is the WorkItems before the one that raised, whose Results stay
    published. *)
Theorem results_follow_the_batch event s :
  let run := FR.handler env event s in
  ∃ results,
    FR.sent run.1 = FR.sent s ++ results ∧
    (λ m, m.2 !! "request_id") <$> results =
      take (length results) (FR.record_request_id <$> event) ∧
    ((FR.statusCode run.2 = 200%Z ∧ length results = length event) ∨
     (FR.statusCode run.2 = 500%Z ∧ length results < length event)).
Proof.
  unfold FR.handler, FR.async_handler. unfold mbind, M_bind, bind, mret, M_ret, ret.
  set (model_path := FR.os_path_join env _ "resnetV1.pt").
  set (model_wt_path := FR.os_path_join env _ "resnetV1_video_weights.pt").
  destruct (for_records_results model_path model_wt_path event s)
    as (results & Hsent & Hids & _ & Hend).
  exists results.
  destruct (FR.for_records env model_path model_wt_path event s) as [s1 [e|[]]];
    simpl in *; (split; [done|]); (split; [done|]).
  - right. destruct Hend as [[? _]|[_ ?]]; done.
  - left. destruct Hend as [[_ ?]|[[e ?] _]]; done.
Qed.

(** X10. Every Result of the handler goes to the response queue, has
    exactly the keys [request_id] and [result], and its result is never
    empty: it is "Unknown" or one of the labels that [torch.load] gives
    for the weights file. *)
Theorem results_are_labels_or_unknown event s m :
  let run := FR.handler env event s in
  let model_wt_path :=
    FR.os_path_join env (FR.LAMBDA_TASK_ROOT env) "resnetV1_video_weights.pt" in
  m ∈ FR.sent run.1 →
  m ∈ FR.sent s ∨
  (m.1 = FR.RESPONSE_QUEUE_URL env ∧
   dom m.2 = {["request_id"; "result"]} ∧
   ∃ result, m.2 !! "result" = Some result ∧ result ≠ "" ∧
     (result = "Unknown" ∨
      ∃ saved_data, FR.torch_load env model_wt_path = Some saved_data ∧
                    result ∈ saved_data.2)).
Proof.
  unfold FR.handler, FR.async_handler. unfold mbind, M_bind, bind, mret, M_ret, ret.
  set (model_path := FR.os_path_join env _ "resnetV1.pt").
  set (model_wt_path := FR.os_path_join env _ "resnetV1_video_weights.pt").
  destruct (for_records_results model_path model_wt_path event s)
    as (results & Hsent & _ & Hall & _).
  assert (Hin : m ∈ FR.sent (FR.for_records env model_path model_wt_path event s).1 →
                m ∈ FR.sent s ∨ m ∈ results).
  { rewrite Hsent. apply elem_of_app. }
  destruct (FR.for_records env model_path model_wt_path event s) as [s1 [e|[]]];
    simpl in *; intros Hm; destruct (Hin Hm) as [?|Hres]; try (by left);
    right; by apply (proj1 (Forall_forall _ _) Hall).
Qed.

End RecognitionBatch.

Section RecognitionEdges.

Context {Image Tensor Model Emb D : Type}.
Variable env : FR.Env Image Tensor Model Emb D.

Ltac unfold_fr :=
  unfold FR.process_record, FR.face_recognition_func, FR.send_message,
    FR.read_file, FR.open_wb, FR.f_write, FR.record_call in *;
  unfold_m.

(** X11. [filename] is a required key of a WorkItem although no Result
    uses it: a batch whose first WorkItem has a request id and a face image
    but no filename is answered 500 with [KeyError('filename')], before any
    file is written or anything is loaded; the rest of the batch is not
    looked at. *)
Theorem work_item_without_filename_is_rejected message_body rest s :
  is_Some (message_body !! "request_id") →
  is_Some (message_body !! "face_image") →
  message_body !! "filename" = None →
  FR.handler env (FR.mkRecord (Object message_body) :: rest) s =
    (s, FR.mkResponse 500 (FR.ErrorInFaceRecognition (KeyError "filename"))).
Proof.
  intros [request_id Hid] [face_image Hface] Hname.
  unfold FR.handler, FR.async_handler. simpl. unfold_fr. simpl.
  by rewrite Hid, Hface, Hname.
Qed.

(** X12. The temporary file is opened for writing before the base64 text
    is decoded: when the text is rejected the handler answers 500 with the
    base64 error, [/tmp/face.jpg] is left empty, and nothing was loaded or
    published. *)
Theorem rejected_base64_leaves_empty_file
    message_body request_id face_image filename rest s :
  message_body !! "request_id" = Some request_id →
  message_body !! "face_image" = Some face_image →
  message_body !! "filename" = Some filename →
  FR.writable env "/tmp/face.jpg" = true →
  FR.b64decode env face_image = None →
  FR.handler env (FR.mkRecord (Object message_body) :: rest) s =
    (FR.mkState (<["/tmp/face.jpg" := []]> (FR.files s)) (FR.sent s) (FR.calls s),
     FR.mkResponse 500 (FR.ErrorInFaceRecognition BinasciiError)).
Proof.
  intros Hid Hface Hname Hw Hdec.
  unfold FR.handler, FR.async_handler. simpl. unfold_fr. simpl.
  by rewrite Hid, Hface, Hname, Hw, Hdec.
Qed.

(** [min] and [index] raise nothing but [ValueError]. *)
Lemma py_index_error (l : list D) v e :
  FR.py_index (FR.dist_eqb env) l v = inl e → e = ValueError.
Proof.
  revert e. induction l as [|x xs IH]; intros e; simpl; [by intros [= <-]|].
  destruct (FR.dist_eqb env x v); [done|].
  destruct (FR.py_index _ xs v) as [e0|k]; [|done].
  intros [= <-]. by apply IH.
Qed.



End RecognitionEdges.

(** * Growing the reference database *)
Section MatcherExtension.

Context {Image Tensor Model Emb D : Type}.
Variable env : FR.Env Image Tensor Model Emb D.

Let keep_smaller := fun m y : D => if FR.dist_ltb env y m then y else m.

(** The item kept by [min] is an item of the list. *)
Lemma fold_min_in (xs : list D) x : fold_left keep_smaller xs x ∈ x :: xs.
Proof.
  revert x. induction xs as [|a xs IH]; intros x; simpl.
  - apply elem_of_cons. by left.
  - specialize (IH (keep_smaller x a)).
    apply elem_of_cons in IH as [->|IH]; [|rewrite !elem_of_cons; auto].
    unfold keep_smaller. destruct (FR.dist_ltb env a x); rewrite !elem_of_cons; auto.
Qed.

Lemma py_min_snoc (l : list D) m d :
  FR.py_min (FR.dist_ltb env) l = inr m →
  m ∈ l ∧ FR.py_min (FR.dist_ltb env) (l ++ [d]) = inr (keep_smaller m d).
Proof.
  destruct l as [|x xs]; simpl; [done|]. intros [= <-].
  split; [apply fold_min_in|]. by rewrite fold_left_app.
Qed.

Lemma py_index_app_l (l : list D) v i d :
  FR.py_index (FR.dist_eqb env) l v = inr i →
  FR.py_index (FR.dist_eqb env) (l ++ [d]) v = inr i.
Proof.
  revert i. induction l as [|x xs IH]; intros i; simpl; [done|].
  destruct (FR.dist_eqb env x v); [done|].
  destruct (FR.py_index _ xs v) as [e|k]; [done|].
  intros [= <-]. by rewrite (IH k).
Qed.

Lemma py_index_app_r (l : list D) v d :
  (∀ x, x ∈ l → FR.dist_eqb env x v = false) →
  FR.dist_eqb env d v = true →
  FR.py_index (FR.dist_eqb env) (l ++ [d]) v = inr (length l).
Proof.
  intros Hl Hd. induction l as [|x xs IH]; simpl; [by rewrite Hd|].
  rewrite Hl by (apply elem_of_cons; by left).
  rewrite IH; [done|]. intros y Hy. apply Hl, elem_of_cons. by right.
Qed.

(** X14. Adding to the end of the database an identity that is not
    strictly closer to the query than some entry already there does not
    change the answer; a tie with the best entry included. *)
Theorem appended_entry_not_closer_keeps_label
    emb embedding_list name_list new_emb new_name label :
  FR.comparable (FR.dist_ltb env) (FR.dist_eqb env) →
  FR.nearest env emb (embedding_list, name_list) = inr label →
  (∃ e, e ∈ embedding_list ∧
     FR.dist_ltb env (FR.torch_dist env emb new_emb) (FR.torch_dist env emb e) = false) →
  FR.nearest env emb (embedding_list ++ [new_emb], name_list ++ [new_name])
  = inr label.
Proof.
  unfold FR.nearest, FR.min_index. simpl. intros Hord Hnearest (e & He & Hfar).
  rewrite fmap_app. simpl.
  destruct (py_min_spec _ _ Hord (FR.torch_dist env emb <$> embedding_list))
    as (m & Hm & _ & Hle).
  { by destruct embedding_list; [apply elem_of_nil in He|]. }
  rewrite Hm in Hnearest.
  destruct (py_min_snoc _ _ (FR.torch_dist env emb new_emb) Hm) as [_ ->].
  unfold keep_smaller.
  rewrite (FR.lt_negtrans _ _ Hord _ _ _ Hfar
             (Hle _ (list_elem_of_fmap_2 (FR.torch_dist env emb) _ _ He))).
  destruct (FR.py_index _ _ _) as [e'|i] eqn:Hi; [done|].
  rewrite (py_index_app_l _ _ _ _ Hi).
  destruct (name_list !! i) as [name|] eqn:Hname; [|done].
  by rewrite (lookup_app_l_Some _ _ _ _ Hname).
Qed.

(** X15. Adding to the end of the database an identity that is strictly
    closer to the query than every entry already there makes it the
    answer. *)
Theorem appended_closer_entry_wins
    emb embedding_list name_list new_emb new_name :
  FR.comparable (FR.dist_ltb env) (FR.dist_eqb env) →
  length name_list = length embedding_list →
  (∀ e, e ∈ embedding_list →
     FR.dist_ltb env (FR.torch_dist env emb new_emb) (FR.torch_dist env emb e) = true) →
  FR.nearest env emb (embedding_list ++ [new_emb], name_list ++ [new_name])
  = inr new_name.
Proof.
  intros Hord Hlen Hnear. unfold FR.nearest, FR.min_index. simpl.
  rewrite fmap_app. simpl.
  set (d := FR.torch_dist env emb new_emb).
  set (l := FR.torch_dist env emb <$> embedding_list).
  assert (Hl : ∀ x, x ∈ l → FR.dist_ltb env d x = true).
  { intros x Hx. apply list_elem_of_fmap in Hx as (e & -> & He). by apply Hnear. }
  assert (Hdd : FR.dist_eqb env d d = true).
  { apply (FR.eq_iff _ _ Hord). split; apply (lt_irrefl _ _ Hord). }
  assert (Hmin : FR.py_min (FR.dist_ltb env) (l ++ [d]) = inr d).
  { destruct (FR.py_min (FR.dist_ltb env) l) as [e|m] eqn:Hm.
    - destruct l; [done|]. by simpl in Hm.
    - destruct (py_min_snoc _ _ d Hm) as [Hin ->].
      unfold keep_smaller. by rewrite (Hl m Hin). }
  rewrite Hmin, py_index_app_r; [| |done].
  - subst l. rewrite length_fmap, <-Hlen.
    by rewrite list_lookup_middle.
  - intros x Hx. destruct (FR.dist_eqb env x d) eqn:E; [|done].
    apply (FR.eq_iff _ _ Hord) in E as [_ E]. by rewrite (Hl x Hx) in E.
Qed.

(** A WorkItem with its three keys is not rejected for its shape. *)
Lemma well_formed_work_item_is_read
    model_path model_wt_path message_body s :
  is_Some (message_body !! "request_id") →
  is_Some (message_body !! "face_image") →
  is_Some (message_body !! "filename") →
  match (FR.process_record env model_path model_wt_path
           (FR.mkRecord (Object message_body)) s).2 with
  | inl (KeyError _) | inl TypeError | inl JSONDecodeError => False
  | _ => True
  end.
Proof.
  intros [request_id Hid] [face_image Hface] [filename Hname].
  unfold FR.process_record, FR.face_recognition_func, FR.send_message,
    FR.read_file, FR.open_wb, FR.f_write, FR.record_call, FR.nearest, FR.min_index.
  unfold_m. simpl. rewrite Hid, Hface, Hname. simpl.
  run_cases.
  all: repeat match goal with
       | H : FR.py_min _ _ = inl _ |- _ =>
           destruct (_ <$> _); simpl in H; simplify_eq
       | H : FR.py_index _ _ _ = inl _ |- _ =>
           apply py_index_error in H; subst
       end; done.
Qed.

End MatcherExtension.

(** * The two components together *)

(** X16. With two distinct queues, whatever was delivered to the
    detection component, every message on its work queue has the three
    keys that the Lambda reads: the Lambda never rejects it with a
    [KeyError], a [TypeError] or a JSON error. *)
Theorem work_items_fit_the_lambda
    {Image Face Image' Tensor Model Emb D : Type}
    (fd : FD.Env Image Face) (fr : FR.Env Image' Tensor Model Emb D)
    evts message_body model_path model_wt_path s :
  FD.REQUEST_QUEUE_URL fd ≠ FD.RESPONSE_QUEUE_URL fd →
  message_body ∈ FD.request_queue fd (FD.deliver fd evts FD.init) →
  match (FR.process_record fr model_path model_wt_path
           (FR.mkRecord (Object message_body)) s).2 with
  | inl (KeyError _) | inl TypeError | inl JSONDecodeError => False
  | _ => True
  end.
Proof.
  intros Hurl Hin. unfold FD.request_queue in Hin.
  apply list_elem_of_fmap in Hin as ([url m] & -> & Hin).
  apply list_elem_of_filter in Hin as [Hto Hin]. simpl in Hto. subst url.
  destruct (messages_come_from_events_from fd evts FD.init _ _ Hin)
    as [Hnil|(body & r & _ & _ & Hshape)]; [by apply elem_of_nil in Hnil|].
  destruct Hshape as [[Heq _]|(face_base64 & _ & ->)]; [done|].
  apply well_formed_work_item_is_read;
    unfold FD.payload; by simplify_map_eq.
Qed.

(** ** Runs of the further properties *)

Lemma no_face_result_published :
  ("response-queue", FD.response_payload "r1" "a.jpg")
  ∈ FD.sent (FD.deliver Demo.fd_env Demo.two_requests FD.init).
Proof. apply list_elem_of_here. Qed.

Lemma work_item_published :
  ("request-queue", FD.payload "r2" "face1" "b.jpg")
  ∈ FD.sent (FD.deliver Demo.fd_env Demo.two_requests FD.init).
Proof. apply list_elem_of_further, list_elem_of_here. Qed.

Lemma published_ids_are_recorded_witness :
  ∃ r, FD.response_payload "r1" "a.jpg" !! "request_id" = Some r ∧
       r ∈ FD.seen_req_ids (FD.deliver Demo.fd_env Demo.two_requests FD.init).
Proof.
  apply (published_ids_are_recorded Demo.fd_env Demo.two_requests
           ("response-queue", FD.response_payload "r1" "a.jpg")).
  exact no_face_result_published.
Defined.

Lemma messages_come_from_events_witness :
  ∃ body, FD.Text (Object body) ∈ Demo.two_requests ∧
          is_Some (FD.payload "r2" "face1" "b.jpg" !! "request_id") ∧
          FD.payload "r2" "face1" "b.jpg" !! "request_id" = body !! "request_id" ∧
          FD.payload "r2" "face1" "b.jpg" !! "filename"
          = Some (default "" (body !! "filename")).
Proof.
  apply (messages_come_from_events Demo.fd_env Demo.two_requests "request-queue").
  exact work_item_published.
Defined.

Lemma published_message_shapes_witness :
  let m := FD.payload "r2" "face1" "b.jpg" in
  ("request-queue" = "response-queue" ∧ m !! "result" = Some "No-Face" ∧
   m !! "face_image" = None ∧ dom m = {["request_id"; "result"; "filename"]}) ∨
  ("request-queue" = "request-queue" ∧ is_Some (m !! "face_image") ∧
   m !! "result" = None ∧ dom m = {["request_id"; "face_image"; "filename"]}).
Proof.
  apply (published_message_shapes Demo.fd_env Demo.two_requests "request-queue").
  exact work_item_published.
Defined.


Lemma rejection_before_gate_leaves_id_free_witness :
  let evt := FD.Text (Object (<["request_id" := "r4"]> ∅)) in
  let s' := FD.on_stream_event Demo.fd_env evt FD.init in
  FD.seen_req_ids s' = ∅ ∧ FD.files s' = ∅ ∧ FD.sent s' = [] ∧
  FD.calls s' = [] ∧ ∃ exn, last (FD.stdout s') = Some (FD.Error exn).
Proof.
  apply (rejection_before_gate_leaves_id_free Demo.fd_env
           (FD.Text (Object (<["request_id" := "r4"]> ∅))) FD.init).
  left. reflexivity.
Defined.

Lemma results_are_labels_or_unknown_witness :
  let env := Demo.fr_env Demo.database in
  let m : string * gmap string string :=
    ("response-queue", <["request_id" := "r1"]> (<["result" := "bob"]> ∅)) in
  m ∈ FR.sent FR.init ∨
  (m.1 = "response-queue" ∧ dom m.2 = {["request_id"; "result"]} ∧
   ∃ result, m.2 !! "result" = Some result ∧ result ≠ "" ∧
     (result = "Unknown" ∨
      ∃ saved_data, Some Demo.database = Some saved_data ∧
                    result ∈ saved_data.2)).
Proof.
  apply (results_are_labels_or_unknown (Demo.fr_env Demo.database)
           [Demo.work_item "r1" "abcde" "a.jpg"] FR.init).
  apply list_elem_of_here.
Defined.

Lemma work_item_without_filename_is_rejected_witness :
  let message_body : gmap string string :=
    <["request_id" := "r1"]> (<["face_image" := "abcde"]> ∅) in
  FR.handler (Demo.fr_env Demo.database)
    [FR.mkRecord (Object message_body); Demo.work_item "r2" "abcdefghi" "b.jpg"]
    FR.init
  = (FR.init, FR.mkResponse 500 (FR.ErrorInFaceRecognition (KeyError "filename"))).
Proof.
  apply (work_item_without_filename_is_rejected (Demo.fr_env Demo.database)
           (<["request_id" := "r1"]> (<["face_image" := "abcde"]> ∅))
           [Demo.work_item "r2" "abcdefghi" "b.jpg"] FR.init).
  - by eexists.
  - by eexists.
  - reflexivity.
Defined.

Lemma rejected_base64_leaves_empty_file_witness :
  FR.handler (Demo.fr_env Demo.database)
    [Demo.work_item "r1" "!" "a.jpg"; Demo.work_item "r2" "abcdefghi" "b.jpg"]
    FR.init
  = (FR.mkState (<["/tmp/face.jpg" := []]> ∅) [] [],
     FR.mkResponse 500 (FR.ErrorInFaceRecognition BinasciiError)).
Proof.
  apply (rejected_base64_leaves_empty_file (Demo.fr_env Demo.database)
           (<["request_id" := "r1"]> (<["face_image" := "!"]>
              (<["filename" := "a.jpg"]> ∅)))
           "r1" "!" "a.jpg" [Demo.work_item "r2" "abcdefghi" "b.jpg"] FR.init).
  - reflexivity.
  - reflexivity.
  - reflexivity.
  - reflexivity.
  - reflexivity.
Defined.


Lemma appended_entry_not_closer_keeps_label_witness :
  FR.nearest (Demo.fr_env Demo.database) 5%Z
    ([9; 5; 7; 5]%Z, ["alice"; "bob"; "carol"; "dave"]) = inr "bob".
Proof.
  apply (appended_entry_not_closer_keeps_label (Demo.fr_env Demo.database)
           5%Z [9; 5; 7]%Z ["alice"; "bob"; "carol"] 5%Z "dave" "bob").
  - exact Z_comparable.
  - reflexivity.
  - exists 5%Z. split; [|reflexivity].
    apply list_elem_of_further, list_elem_of_here.
Defined.

Lemma appended_closer_entry_wins_witness :
  FR.nearest (Demo.fr_env Demo.database) 5%Z
    ([9; 7; 6]%Z, ["alice"; "carol"; "erin"]) = inr "erin".
Proof.
  apply (appended_closer_entry_wins (Demo.fr_env Demo.database)
           5%Z [9; 7]%Z ["alice"; "carol"] 6%Z "erin").
  - exact Z_comparable.
  - reflexivity.
  - intros e He. apply list_elem_of_In in He. simpl in He.
    destruct He as [<-|[<-|[]]]; reflexivity.
Defined.

Lemma work_items_fit_the_lambda_witness :
  match (FR.process_record (Demo.fr_env Demo.database) "model" "weights"
           (FR.mkRecord (Object (FD.payload "r2" "face1" "b.jpg"))) FR.init).2 with
  | inl (KeyError _) | inl TypeError | inl JSONDecodeError => False
  | _ => True
  end.
Proof.
  apply (work_items_fit_the_lambda Demo.fd_env (Demo.fr_env Demo.database)
           Demo.two_requests (FD.payload "r2" "face1" "b.jpg")
           "model" "weights" FR.init).
  - discriminate.
  - apply list_elem_of_here.
Defined.

(** * Files, and batches delivered again *)
Section DetectionFiles.

Context {Image Face : Type}.
Variable env : FD.Env Image Face.

Lemma on_stream_event_keeps_files evt s :
  dom (FD.files s) ⊆ dom (FD.files (FD.on_stream_event env evt s)).
Proof.
  unfold FD.on_stream_event, FD.try_event, FD.utf8_decode, FD.process_message,
    FD.face_detection_func, FD.send_message, FD.read_file, FD.write_file,
    FD.seen_add, FD.record_call, FD.print.
  unfold_m.
  destruct evt as [|[| |body]]; simpl; try done.
  run_cases; rewrite ?dom_insert_L; set_solver.
Qed.

(** X17. The detection component removes no file: every temporary image
    and every face crop it has written is still there, whatever is
    delivered afterwards. *)
Theorem files_are_never_removed evts s :
  dom (FD.files s) ⊆ dom (FD.files (FD.deliver env evts s)).
Proof.
  revert s. induction evts as [|evt evts IH]; intros s; simpl; [done|].
  etrans; [apply on_stream_event_keeps_files|apply IH].
Qed.

End DetectionFiles.

Section RecognitionRuns.

Context {Image Tensor Model Emb D : Type}.
Variable env : FR.Env Image Tensor Model Emb D.

Ltac unfold_fr :=
  unfold FR.process_record, FR.face_recognition_func, FR.send_message,
    FR.read_file, FR.open_wb, FR.f_write, FR.record_call in *;
  unfold_m.

Lemma process_record_files model_path model_wt_path record s path :
  path ≠ "/tmp/face.jpg" →
  FR.files (FR.process_record env model_path model_wt_path record s).1 !! path
  = FR.files s !! path.
Proof.
  intros Hpath. unfold_fr.
  destruct record as [[| |body]]; simpl; try done.
  run_cases; by rewrite ?lookup_insert_ne.
Qed.

Lemma for_records_files model_path model_wt_path records s path :
  path ≠ "/tmp/face.jpg" →
  FR.files (FR.for_records env model_path model_wt_path records s).1 !! path
  = FR.files s !! path.
Proof.
  intros Hpath. revert s. induction records as [|record rest IH]; intros s;
    simpl; [done|].
  unfold mbind, M_bind, bind.
  pose proof (process_record_files model_path model_wt_path record s path Hpath)
    as Hfiles.
  destruct (FR.process_record env model_path model_wt_path record s)
    as [s1 [e|[]]]; simpl in *; [done|].
  by rewrite IH.
Qed.

(** X18. The Lambda writes one file only: after a batch, whether it
    succeeded or not, every path other than [/tmp/face.jpg] holds what it
    held before. *)
Theorem only_the_temporary_file_is_written event s path :
  path ≠ "/tmp/face.jpg" →
  FR.files (FR.handler env event s).1 !! path = FR.files s !! path.
Proof.
  intros Hpath. unfold FR.handler, FR.async_handler.
  unfold mbind, M_bind, bind, mret, M_ret, ret.
  set (model_path := FR.os_path_join env _ "resnetV1.pt").
  set (model_wt_path := FR.os_path_join env _ "resnetV1_video_weights.pt").
  pose proof (for_records_files model_path model_wt_path event s path Hpath).
  by destruct (FR.for_records env model_path model_wt_path event s)
    as [s1 [e|[]]].
Qed.

(** What a record publishes, and whether it raises, does not depend on
    the state it is processed in. *)
Lemma process_record_stateless model_path model_wt_path record s t :
  (FR.process_record env model_path model_wt_path record s).2 =
  (FR.process_record env model_path model_wt_path record t).2 ∧
  ∃ results,
    FR.sent (FR.process_record env model_path model_wt_path record s).1
    = FR.sent s ++ results ∧
    FR.sent (FR.process_record env model_path model_wt_path record t).1
    = FR.sent t ++ results.
Proof.
  unfold_fr.
  destruct record as [[| |body]]; simpl;
    try (split; [done|exists []; by rewrite !app_nil_r]).
  run_cases; split; try done;
    (by eexists) || (exists []; by rewrite !app_nil_r).
Qed.

Lemma for_records_stateless model_path model_wt_path records s t :
  (FR.for_records env model_path model_wt_path records s).2 =
  (FR.for_records env model_path model_wt_path records t).2 ∧
  ∃ results,
    FR.sent (FR.for_records env model_path model_wt_path records s).1
    = FR.sent s ++ results ∧
    FR.sent (FR.for_records env model_path model_wt_path records t).1
    = FR.sent t ++ results.
Proof.
  revert s t. induction records as [|record rest IH]; intros s t; simpl.
  { split; [done|]. exists []. by rewrite !app_nil_r. }
  unfold mbind, M_bind, bind.
  destruct (process_record_stateless model_path model_wt_path record s t)
    as (Hres & results & Hs & Ht).
  destruct (FR.process_record env model_path model_wt_path record s) as [s1 rs];
    destruct (FR.process_record env model_path model_wt_path record t) as [t1 rt];
    simpl in *; subst rt.
  destruct rs as [e|[]]; simpl.
  - split; [done|]. by exists results.
  - destruct (IH s1 t1) as (Hres' & results' & Hs' & Ht').
    split; [done|]. exists (results ++ results').
    by rewrite Hs', Ht', Hs, Ht, !app_assoc.
Qed.

(** X19. The Lambda keeps no record of what it has answered: a batch
    that is delivered again gets the same response and the same Results
    are published once more. *)
Theorem redelivered_batch_is_answered_again event s :
  let first := FR.handler env event s in
  let second := FR.handler env event first.1 in
  second.2 = first.2 ∧
  ∃ results,
    FR.sent first.1 = FR.sent s ++ results ∧
    FR.sent second.1 = FR.sent s ++ results ++ results.
Proof.
  unfold FR.handler, FR.async_handler.
  unfold mbind, M_bind, bind, mret, M_ret, ret.
  set (model_path := FR.os_path_join env _ "resnetV1.pt").
  set (model_wt_path := FR.os_path_join env _ "resnetV1_video_weights.pt").
  cbv zeta.
  destruct (FR.for_records env model_path model_wt_path event s) as [s1 r1] eqn:H1.
  destruct (for_records_stateless model_path model_wt_path event s s1)
    as (Hres & results & Hs & Ht).
  rewrite H1 in Hres, Hs. simpl in Hres, Hs.
  destruct r1 as [e|[]]; simpl in *;
    destruct (FR.for_records env model_path model_wt_path event s1) as [s2 r2];
    simpl in *; subst r2; (split; [done|]);
    exists results; (split; [done|]); simpl; by rewrite Ht, Hs, app_assoc.
Qed.

End RecognitionRuns.

Lemma only_the_temporary_file_is_written_witness :
  FR.files (FR.handler (Demo.fr_env Demo.database)
              [Demo.work_item "r1" "abcde" "a.jpg"] FR.init).1
    !! "/tmp/detected_faces/r1_face.jpg"
  = None.
Proof.
  apply (only_the_temporary_file_is_written (Demo.fr_env Demo.database)
           [Demo.work_item "r1" "abcde" "a.jpg"] FR.init
           "/tmp/detected_faces/r1_face.jpg").
  discriminate.
Defined.
